(** * Telemetry backend: realtime connection manager, aggregation cache,
      ingestion pipeline and time ranges

    A shallow embedding of the Python services of the telemetry backend
    and the properties its specification states about them.

    - [WebSocketManager]  infrastructure/websocket/manager.py
    - [TimeRange]         domain/value_objects/time_range.py
    - [SensorMetrics]     domain/value_objects/metrics.py
    - [AggregationService] services/aggregation_service.py
    - [IngestionService]  services/ingestion_service.py
    - [RealtimeRoutes]    api/realtime/routes.py
    - [DeviceEntity], [DeviceService]  domain/entities/device.py,
                          services/device_service.py

    Conventions of the embedding.  A Python [dict] is a [gmap], a [set]
    a [gset]; a coroutine is the function from the state before the call
    to the outcome and the state after it (one call runs without
    interleaving, which is what the [asyncio.Lock] sections and the
    absence of [await] inside them give).  A raised exception is the
    [Raise] outcome; the state reached when it is raised is kept, since
    nothing in these services rolls state back.  Strings are byte strings
    and the string functions of Python that the code calls ([str.strip],
    [str.lower], [\d]) are given on ASCII. *)

From Stdlib Require Import ZArith Floats Ascii String.
From stdpp Require Import gmap strings list fin_maps fin_sets.

Local Open Scope string_scope.
#[local] Set Warnings "-clear-no-such-hyp".

(* ===================================================================== *)
(** ** Exceptions and outcomes *)
(* ===================================================================== *)

(** The exception classes the modelled code raises or lets through.
    [IngestionError] subclasses carry the [code] the source gives them;
    a message that the source formats from a value is kept by its fixed
    part only. [CollaboratorError] stands for any [Exception] raised by
    a collaborator (a socket send, a database call). *)
Inductive exn : Type :=
| ValueError (msg : string)
| OverflowError (msg : string)
| AuthenticationError
| DeviceNotFoundError (device_id : string)
| DeviceInactiveError (device_id : string)
| InvalidPayloadError (msg : string)
| CollaboratorError (msg : string).

Inductive outcome (A : Type) : Type :=
| Ret (a : A)
| Raise (e : exn).
Arguments Ret {A} a.
Arguments Raise {A} e.

Definition is_ret {A} (o : outcome A) : bool :=
  match o with Ret _ => true | Raise _ => false end.

(** [code] attribute of an [IngestionError]. *)
Definition code (e : exn) : option string :=
  match e with
  | AuthenticationError => Some "AUTHENTICATION_FAILED"
  | DeviceNotFoundError _ => Some "DEVICE_NOT_FOUND"
  | DeviceInactiveError _ => Some "DEVICE_INACTIVE"
  | InvalidPayloadError _ => Some "INVALID_PAYLOAD"
  | _ => None
  end.

(* ===================================================================== *)
(** ** Connections and the frames pushed on them *)
(* ===================================================================== *)

(** A [WebSocket] is an opaque hashable handle. *)
Abbreviation WebSocket := nat (only parsing).

Inductive WebSocketState : Type := CONNECTING | CONNECTED | DISCONNECTED | RESPONSE.

Definition WebSocketState_eqb (a b : WebSocketState) : bool :=
  match a, b with
  | CONNECTING, CONNECTING | CONNECTED, CONNECTED
  | DISCONNECTED, DISCONNECTED | RESPONSE, RESPONSE => true
  | _, _ => false
  end.

(** The JSON object [{"type": "reading", "device_id": .., "data": ..}]. *)
Record frame (Msg : Type) : Type := Frame {
  frame_type : string;
  frame_device_id : string;
  frame_data : Msg
}.
Arguments Frame {Msg}.
Arguments frame_type {Msg}.
Arguments frame_device_id {Msg}.
Arguments frame_data {Msg}.

(** What the environment answers for one socket: its [client_state] and
    what [send_json] does with a frame (return, or raise). *)
Record channel (Msg : Type) : Type := Channel {
  client_state : WebSocketState;
  send_json : frame Msg -> outcome unit
}.
Arguments Channel {Msg}.
Arguments client_state {Msg}.
Arguments send_json {Msg}.

(* ===================================================================== *)
(** ** WebSocketManager *)
(* ===================================================================== *)

Module WebSocketManager.

Record manager : Type := Manager {
  (** device_id -> set of WebSocket connections *)
  _device_subscribers : gmap string (gset WebSocket);
  (** WebSocket -> set of subscribed device_ids *)
  _connection_subscriptions : gmap WebSocket (gset string)
}.

(** [WebSocketManager()] *)
Definition init : manager := Manager ∅ ∅.

(** [self._device_subscribers.get(device_id, set())] *)
Definition subscribers (m : manager) (device_id : string) : gset WebSocket :=
  default ∅ (_device_subscribers m !! device_id).

(** [self._connection_subscriptions.get(websocket, set())] *)
Definition subscriptions (m : manager) (websocket : WebSocket) : gset string :=
  default ∅ (_connection_subscriptions m !! websocket).

Definition connection_count (m : manager) : nat :=
  size (_connection_subscriptions m).

Definition subscription_count (m : manager) : nat :=
  map_fold (λ _ subs n, size subs + n) 0 (_device_subscribers m).

(** [connect], after [websocket.accept()] returned. *)
Definition connect (websocket : WebSocket) (m : manager) : manager :=
  Manager (_device_subscribers m)
          (<[websocket := ∅]> (_connection_subscriptions m)).

(** What is left of a topic's entry once [websocket] is taken out of the
    subscriber set [s]: no entry when the set is left empty. *)
Definition pruned (websocket : WebSocket) (s : gset WebSocket)
    : option (gset WebSocket) :=
  if decide (s ∖ {[websocket]} = ∅) then None else Some (s ∖ {[websocket]}).

(** [self._device_subscribers[device_id].discard(websocket)] followed
    by the deletion of the entry when its set is left empty; nothing
    when [device_id] is not a key. *)
Definition discard_subscriber (websocket : WebSocket) (device_id : string)
    (subs : gmap string (gset WebSocket)) : gmap string (gset WebSocket) :=
  match subs !! device_id with
  | Some s =>
      let s' := s ∖ {[websocket]} in
      if decide (s' = ∅) then delete device_id subs
      else <[device_id := s']> subs
  | None => subs
  end.

(** [disconnect]: pops the connection's topic set (the empty set when
    the connection is not a key) and walks it. *)
Definition disconnect (websocket : WebSocket) (m : manager) : manager :=
  let subscribed_devices := subscriptions m websocket in
  let conns := delete websocket (_connection_subscriptions m) in
  Manager (foldr (discard_subscriber websocket) (_device_subscribers m)
                 (elements subscribed_devices))
          conns.

Definition subscribe (websocket : WebSocket) (device_id : string)
    (m : manager) : manager :=
  let subs :=
    match _device_subscribers m !! device_id with
    | None => <[device_id := ∅]> (_device_subscribers m)
    | Some _ => _device_subscribers m
    end in
  let subs := alter (λ s, s ∪ {[websocket]}) device_id subs in
  let conns :=
    match _connection_subscriptions m !! websocket with
    | Some t => <[websocket := t ∪ {[device_id]}]> (_connection_subscriptions m)
    | None => _connection_subscriptions m
    end in
  Manager subs conns.

Definition unsubscribe (websocket : WebSocket) (device_id : string)
    (m : manager) : manager :=
  let subs := discard_subscriber websocket device_id (_device_subscribers m) in
  let conns :=
    match _connection_subscriptions m !! websocket with
    | Some t => <[websocket := t ∖ {[device_id]}]> (_connection_subscriptions m)
    | None => _connection_subscriptions m
    end in
  Manager subs conns.

(** *** Broadcast *)

Section Broadcast.
Context {Msg : Type}.
(** The sockets as the environment presents them during the call. *)
Variable net : WebSocket -> channel Msg.

(** State of one fan-out: frames that were sent, and the local list
    [disconnected]. *)
Record fanout : Type := Fanout {
  delivered : list (WebSocket * frame Msg);
  disconnected : list WebSocket
}.

(** The body of the [try] of [send_to_subscriber]: a send when the
    socket is [CONNECTED]. A frame counts as delivered when
    [send_json] returned. *)
Definition try_send (device_id : string) (message : Msg)
    (ws : WebSocket) (st : fanout) : outcome unit * fanout :=
  if WebSocketState_eqb (client_state (net ws)) CONNECTED then
    let f := Frame "reading" device_id message in
    match send_json (net ws) f with
    | Ret _ => (Ret tt, Fanout (delivered st ++ [(ws, f)]) (disconnected st))
    | Raise e => (Raise e, st)
    end
  else (Ret tt, st).

(** [send_to_subscriber]: [except Exception] appends the socket to
    [disconnected] and the coroutine returns. *)
Definition send_to_subscriber (device_id : string) (message : Msg)
    (ws : WebSocket) (st : fanout) : outcome unit * fanout :=
  match try_send device_id message ws st with
  | (Raise _, st') => (Ret tt, Fanout (delivered st') (disconnected st' ++ [ws]))
  | (Ret _, st') => (Ret tt, st')
  end.

(** [asyncio.gather] over the coroutines: all of them run; the first exception
    among their outcomes is raised to the caller. *)
Fixpoint gather (coros : list (fanout -> outcome unit * fanout))
    (st : fanout) : outcome unit * fanout :=
  match coros with
  | [] => (Ret tt, st)
  | c :: rest =>
      let '(o, st1) := c st in
      let '(os, st2) := gather rest st1 in
      (match o with Raise e => Raise e | Ret _ => os end, st2)
  end.

(** The sockets of a fan-out whose send returns, and those whose send
    raises; a socket that is not [CONNECTED] is in neither. *)
Definition send_returns (device_id : string) (message : Msg) (ws : WebSocket) : bool :=
  WebSocketState_eqb (client_state (net ws)) CONNECTED
  && is_ret (send_json (net ws) (Frame "reading" device_id message)).

Definition send_raises (device_id : string) (message : Msg) (ws : WebSocket) : bool :=
  WebSocketState_eqb (client_state (net ws)) CONNECTED
  && negb (is_ret (send_json (net ws) (Frame "reading" device_id message))).

Record broadcast_result : Type := BroadcastResult {
  br_outcome : outcome unit;
  br_manager : manager;
  br_delivered : list (WebSocket * frame Msg);
  br_disconnected : list WebSocket
}.

Definition broadcast_to_device (device_id : string) (message : Msg)
    (m : manager) : broadcast_result :=
  let subscribers := subscribers m device_id in
  if decide (subscribers = ∅) then BroadcastResult (Ret tt) m [] []
  else
    let '(o, st) :=
      gather (map (send_to_subscriber device_id message) (elements subscribers))
             (Fanout [] []) in
    match o with
    | Raise e => BroadcastResult (Raise e) m (delivered st) (disconnected st)
    | Ret _ =>
        BroadcastResult (Ret tt)
          (foldl (λ m ws, disconnect ws m) m (disconnected st))
          (delivered st) (disconnected st)
    end.
End Broadcast.

(** *** The invariant of the subscription index *)

(** A connection is in a topic's subscriber set iff the topic is in the
    connection's topic set. *)
Definition mutually_consistent (m : manager) : Prop :=
  ∀ (ws : WebSocket) (device_id : string),
    ws ∈ subscribers m device_id ↔ device_id ∈ subscriptions m ws.

(** No topic is a key with an empty subscriber set. *)
Definition no_empty_topic (m : manager) : Prop :=
  ∀ device_id, _device_subscribers m !! device_id ≠ Some ∅.

Definition registered (m : manager) (ws : WebSocket) : Prop :=
  is_Some (_connection_subscriptions m !! ws).

(** Calls of the subscription interface, and a run of a sequence of
    them. *)
Inductive call : Type :=
| Subscribe (ws : WebSocket) (device_id : string)
| Unsubscribe (ws : WebSocket) (device_id : string).

Definition step (m : manager) (c : call) : manager :=
  match c with
  | Subscribe ws d => subscribe ws d m
  | Unsubscribe ws d => unsubscribe ws d m
  end.

Definition run (m : manager) (cs : list call) : manager := foldl step m cs.

(** Every [Subscribe] of the sequence is made on a connection that is
    registered when the call is made. *)
Fixpoint subscribes_registered (m : manager) (cs : list call) : Prop :=
  match cs with
  | [] => True
  | c :: rest =>
      match c with
      | Subscribe ws _ => registered m ws
      | Unsubscribe _ _ => True
      end ∧ subscribes_registered (step m c) rest
  end.

(** Every topic whose subscriber set holds [c] is in the topic set of
    [c]: the part of the mutual consistency of the index that a
    disconnect of [c] relies on. *)
Definition tracked (m : manager) (c : WebSocket) : Prop :=
  ∀ device_id, c ∈ subscribers m device_id → device_id ∈ subscriptions m c.

(** What unregistering [c] is said to do to a registry state [m]:
    [c] is in no topic's subscriber set and not in the connection index
    afterwards, the other connections are in the subscriber sets and in
    the connection index as they were, a topic whose subscriber set is
    emptied by the removal is deleted, and when [c] had no subscription
    the topic index is the one before and the connection index is the
    one before without [c]. *)
Definition unregister_effect (m : manager) (c : WebSocket) : Prop :=
  let m' := disconnect c m in
  (∀ device_id, c ∉ subscribers m' device_id)
  ∧ ¬ registered m' c
  ∧ (∀ ws device_id, ws ≠ c →
       ws ∈ subscribers m' device_id ↔ ws ∈ subscribers m device_id)
  ∧ (∀ ws, ws ≠ c →
       _connection_subscriptions m' !! ws = _connection_subscriptions m !! ws)
  ∧ (∀ device_id s, _device_subscribers m !! device_id = Some s →
       c ∈ s → s ∖ {[c]} = ∅ → _device_subscribers m' !! device_id = None)
  ∧ (subscriptions m c = ∅ →
       _device_subscribers m' = _device_subscribers m
       ∧ _connection_subscriptions m' = delete c (_connection_subscriptions m)).

(** A state in which the index is not mutually consistent, while the
    topics of connection 1 are all in its own topic set: connection 2 is
    in the set of a topic that its own topic set does not list. *)
Definition mixed : manager :=
  subscribe 2 "esp32_02" (subscribe 1 "esp32_01" (connect 1 init)).

(** Example states. [two_clients]: connections 1 and 2 registered.
    [stray_subscriber]: connection 7 subscribed without being registered. *)
Definition two_clients : manager := connect 2 (connect 1 init).

Definition example_calls : list call :=
  [Subscribe 1 "esp32_01"; Subscribe 2 "esp32_01"; Unsubscribe 1 "esp32_01";
   Unsubscribe 3 "esp32_02"; Subscribe 2 "__all__"; Unsubscribe 2 "esp32_01"].

Definition stray_subscriber : manager := subscribe 7 "esp32_01" init.

(** Three subscribers of one topic; the send to connection 2 raises. *)
Definition three_subscribers : manager :=
  foldl step (connect 3 two_clients)
    [Subscribe 1 "esp32_01"; Subscribe 2 "esp32_01"; Subscribe 3 "esp32_01"].

Definition flaky_net (ws : WebSocket) : channel nat :=
  if Nat.eqb ws 2
  then Channel CONNECTED (λ _, Raise (CollaboratorError "connection reset"))
  else Channel CONNECTED (λ _, Ret tt).

End WebSocketManager.

(* ===================================================================== *)
(** ** Programs with state and exceptions *)
(* ===================================================================== *)

(** A method over a state [S]: the outcome and the state it leaves. *)
Definition prog (S A : Type) : Type := S → outcome A * S.

Definition ret {S A} (a : A) : prog S A := λ s, (Ret a, s).
Definition raise {S A} (e : exn) : prog S A := λ s, (Raise e, s).
Definition bind {S A B} (p : prog S A) (k : A → prog S B) : prog S B :=
  λ s, match p s with
       | (Ret a, s') => k a s'
       | (Raise e, s') => (Raise e, s')
       end.
Definition gets {S A} (f : S → A) : prog S A := λ s, (Ret (f s), s).
Definition modify {S} (f : S → S) : prog S unit := λ s, (Ret tt, f s).
Definition lift {S A} (o : outcome A) : prog S A := λ s, (o, s).

Notation "'do' x <- p ; k" := (bind p (λ x, k))
  (at level 10, x name, p at level 100, k at level 200,
   format "'[v' 'do'  x  <-  p ; '/' k ']'").
Notation "p ;; k" := (bind p (λ _, k))
  (at level 100, k at level 200, right associativity).

(* ===================================================================== *)
(** ** Strings as Python uses them (ASCII) *)
(* ===================================================================== *)

Definition is_digit (c : ascii) : bool :=
  let n := nat_of_ascii c in (48 <=? n)%nat && (n <=? 57)%nat.

(** [str.isspace] on one ASCII character: tab, LF, VT, FF, CR, the four
    separators 0x1c-0x1f and space. *)
Definition is_space (c : ascii) : bool :=
  let n := nat_of_ascii c in
  ((9 <=? n)%nat && (n <=? 13)%nat) || ((28 <=? n)%nat && (n <=? 32)%nat).

Definition lower_ascii (c : ascii) : ascii :=
  let n := nat_of_ascii c in
  if (65 <=? n)%nat && (n <=? 90)%nat then ascii_of_nat (n + 32) else c.

(** [s.lower()] *)
Fixpoint lower (s : string) : string :=
  match s with
  | EmptyString => EmptyString
  | String c s' => String (lower_ascii c) (lower s')
  end.

Fixpoint lstrip (s : string) : string :=
  match s with
  | String c s' => if is_space c then lstrip s' else s
  | EmptyString => EmptyString
  end.

Fixpoint rstrip (s : string) : string :=
  match s with
  | EmptyString => EmptyString
  | String c s' =>
      match rstrip s' with
      | EmptyString => if is_space c then EmptyString else String c EmptyString
      | r => String c r
      end
  end.

(** [s.strip()] *)
Definition strip (s : string) : string := rstrip (lstrip s).

(** [needle in s] for two strings: [needle] occurs in [s]. *)
Fixpoint contains (needle s : string) : bool :=
  String.prefix needle s
  || match s with
     | EmptyString => false
     | String _ s' => contains needle s'
     end.

(** [s.split(",")] *)
Fixpoint split_comma (s : string) : list string :=
  match s with
  | EmptyString => [EmptyString]
  | String c s' =>
      if Ascii.eqb c "," then EmptyString :: split_comma s'
      else match split_comma s' with
           | w :: ws => String c w :: ws
           | [] => [String c EmptyString]
           end
  end.

(* ===================================================================== *)
(** ** datetime and timedelta *)
(* ===================================================================== *)

(** A [datetime] is its number of microseconds since 0001-01-01T00:00:00
    (the proleptic Gregorian ordinal of Python, in microseconds); a
    [timedelta] is a number of microseconds. *)
Abbreviation datetime := Z (only parsing).
Abbreviation timedelta := Z (only parsing).

Local Open Scope Z_scope.

Definition us_per_second : Z := 1000000.
Definition us_per_day : Z := 86400 * us_per_second.

Definition is_leap (year : Z) : bool :=
  (year mod 4 =? 0) && (negb (year mod 100 =? 0) || (year mod 400 =? 0)).

Definition days_before_year (year : Z) : Z :=
  let y := year - 1 in y * 365 + y / 4 - y / 100 + y / 400.

Definition days_before_month (year month : Z) : Z :=
  nth (Z.to_nat month) [0; 0; 31; 59; 90; 120; 151; 181; 212; 243; 273; 304; 334] 0
  + (if (2 <? month) && is_leap year then 1 else 0).

Definition ymd2ord (year month day : Z) : Z :=
  days_before_year year + days_before_month year month + day.

(** [datetime(year, month, day, hour, minute, second)] *)
Definition mk_datetime (year month day hour minute second : Z) : datetime :=
  ((ymd2ord year month day - 1) * 86400 + hour * 3600 + minute * 60 + second)
  * us_per_second.

(** [datetime.min] and [datetime.max] (9999-12-31T23:59:59.999999). *)
Definition datetime_min : datetime := 0.
Definition datetime_max : datetime := 3652059 * us_per_day - 1.

(** [timedelta(...)] from a number of microseconds: the number of days
    must have magnitude at most 999999999. *)
Definition mk_timedelta (us : Z) : outcome timedelta :=
  let days := us / us_per_day in
  if (days <? -999999999) || (999999999 <? days)
  then Raise (OverflowError "days must have magnitude <= 999999999")
  else Ret us.

(** [dt - delta] *)
Definition datetime_sub (dt : datetime) (delta : timedelta) : outcome datetime :=
  let r := dt - delta in
  if (r <? datetime_min) || (datetime_max <? r)
  then Raise (OverflowError "date value out of range")
  else Ret r.

(** [(a - b).total_seconds() > seconds], for an integer number of
    seconds. The code compares the binary64 quotient of the microseconds
    by 10^6 with [seconds]; the test here compares the microseconds with
    [seconds * 10^6]. When it answers [false] the code does too, for
    the rounding of the quotient is monotone and [seconds] is a double.
    When it answers [true] the code does too as long as
    [0 <= seconds < 2^32], where the doubles are less than 10^-6 apart;
    from 2^34 seconds on, the code takes an age of one microsecond more
    than [seconds] for not exceeding it. *)
Definition age_exceeds (now cached_at : datetime) (seconds : Z) : bool :=
  seconds * us_per_second <? now - cached_at.

(* ===================================================================== *)
(** ** TimeRange *)
(* ===================================================================== *)

Module TimeRange.

Record t : Type := Make { start : datetime; end_ : datetime }.

(** The dataclass constructor with its [__post_init__]. *)
Definition make (start end_ : datetime) : outcome t :=
  if end_ <=? start
  then Raise (ValueError "Start time must be before end time")
  else Ret (Make start end_).

(** The longest prefix of decimal digits, and what follows it. *)
Fixpoint span_digits (s : string) : string * string :=
  match s with
  | String c s' =>
      if is_digit c
      then let '(ds, rest) := span_digits s' in (String c ds, rest)
      else (EmptyString, s)
  | EmptyString => (EmptyString, EmptyString)
  end.

Definition is_unit (c : ascii) : bool :=
  Ascii.eqb c "h" || Ascii.eqb c "d" || Ascii.eqb c "m" || Ascii.eqb c "w".

(** [re.match(r"^(\d+)([hdmw])$", s)]: the two groups when [s] is one or
    more digits and a unit letter; [$] also matches before a newline
    that ends the string. *)
Definition re_match (s : string) : option (string * ascii) :=
  let '(ds, rest) := span_digits s in
  match ds, rest with
  | EmptyString, _ => None
  | _, String u EmptyString => if is_unit u then Some (ds, u) else None
  | _, String u (String nl EmptyString) =>
      if is_unit u && Ascii.eqb nl "010" then Some (ds, u) else None
  | _, _ => None
  end.

Fixpoint int_of_digits (acc : Z) (s : string) : Z :=
  match s with
  | String c s' => int_of_digits (acc * 10 + (Z.of_nat (nat_of_ascii c) - 48)) s'
  | EmptyString => acc
  end.

(** [int(digits)]: the conversion of more than 4300 digits is refused. *)
Definition int (digits : string) : outcome Z :=
  if (4300 <? String.length digits)%nat
  then Raise (ValueError "Exceeds the limit for integer string conversion")
  else Ret (int_of_digits 0 digits).

(** [TimeRange.last(duration_str, now)]; [utcnow] is what
    [datetime.utcnow()] answers if it is called. *)
Definition last (duration_str : string) (now : option datetime)
    (utcnow : datetime) : outcome t :=
  let now := default utcnow now in
  match re_match (lower duration_str) with
  | None => Raise (ValueError "Invalid duration format")
  | Some (digits, unit) =>
      match int digits with
      | Raise e => Raise e
      | Ret value =>
          if value <=? 0 then Raise (ValueError "Duration must be positive")
          else
            let delta :=
              if Ascii.eqb unit "m" then mk_timedelta (value * 60 * us_per_second)
              else if Ascii.eqb unit "h" then mk_timedelta (value * 3600 * us_per_second)
              else if Ascii.eqb unit "d" then mk_timedelta (value * us_per_day)
              else if Ascii.eqb unit "w" then mk_timedelta (value * 7 * us_per_day)
              else Raise (ValueError "Unknown time unit") in
            match delta with
            | Raise e => Raise e
            | Ret delta =>
                match datetime_sub now delta with
                | Raise e => Raise e
                | Ret start => make start now
                end
            end
      end
  end.

(** [TimeRange.between(start, end)] *)
Definition between (start end_ : datetime) : outcome t := make start end_.

Definition duration (r : t) : timedelta := end_ r - start r.

End TimeRange.

Local Close Scope Z_scope.

(* ===================================================================== *)
(** ** Settings *)
(* ===================================================================== *)

Module Settings.

Record t : Type := Make {
  (** comma-separated list of valid device API keys *)
  device_api_keys : string;
  (** aggregation cache TTL in seconds *)
  aggregation_cache_ttl : Z;
  history_default_limit : Z
}.

(** The property [device_api_keys_set]. *)
Definition device_api_keys_set (s : t) : gset string :=
  match device_api_keys s with
  | EmptyString => ∅
  | keys =>
      list_to_set
        (List.filter (λ key, negb (String.eqb key EmptyString))
                     (map strip (split_comma keys)))
  end.

End Settings.

(* ===================================================================== *)
(** ** SensorMetrics *)
(* ===================================================================== *)

Module SensorMetrics.

Record t : Type := Make {
  temperature : option float;
  humidity : option float;
  voltage : option float
}.

Definition TEMP_MIN : float := (-40)%float.
Definition TEMP_MAX : float := 85%float.
Definition HUMIDITY_MIN : float := 0%float.
Definition HUMIDITY_MAX : float := 100%float.
Definition VOLTAGE_MIN : float := 0%float.
Definition VOLTAGE_MAX : float := 24%float.

(** The chained comparison [lo <= v <= hi] on binary64 floats. *)
Definition between (lo hi v : float) : bool :=
  PrimFloat.leb lo v && PrimFloat.leb v hi.

(** One [if self.x is not None: if not MIN <= self.x <= MAX: raise ...]. *)
Definition check (lo hi : float) (msg : string) (v : option float) : outcome unit :=
  match v with
  | Some x => if between lo hi x then Ret tt else Raise (ValueError msg)
  | None => Ret tt
  end.

(** The dataclass constructor with its [__post_init__]. *)
Definition make (temperature humidity voltage : option float) : outcome t :=
  match check TEMP_MIN TEMP_MAX "Temperature must be between -40.0 and 85.0" temperature with
  | Raise e => Raise e
  | Ret _ =>
  match check HUMIDITY_MIN HUMIDITY_MAX "Humidity must be between 0.0 and 100.0" humidity with
  | Raise e => Raise e
  | Ret _ =>
  match check VOLTAGE_MIN VOLTAGE_MAX "Voltage must be between 0.0 and 24.0" voltage with
  | Raise e => Raise e
  | Ret _ => Ret (Make temperature humidity voltage)
  end end end.

Definition from_dict (data : gmap string float) : outcome t :=
  make (data !! "temperature") (data !! "humidity") (data !! "voltage").

(** [x is not None] *)
Definition is_not_None {A} (x : option A) : bool :=
  match x with Some _ => true | None => false end.

Definition has_any_metric (m : t) : bool :=
  existsb id
    [is_not_None (temperature m); is_not_None (humidity m); is_not_None (voltage m)].

Definition put (key : string) (v : option float) (d : gmap string float)
    : gmap string float :=
  match v with Some x => <[key := x]> d | None => d end.

Definition to_dict (m : t) : gmap string float :=
  put "voltage" (voltage m)
    (put "humidity" (humidity m) (put "temperature" (temperature m) ∅)).

End SensorMetrics.

(* ===================================================================== *)
(** ** Device and Reading *)
(* ===================================================================== *)

Abbreviation UUID := Z (only parsing).

Module Device.

Record t : Type := Make {
  id : UUID;
  device_id : string;
  name : option string;
  api_key_hash : string;
  is_active : bool;
  created_at : datetime;
  last_seen_at : option datetime
}.

Definition with_last_seen (d : t) (timestamp : datetime) : t :=
  Make (id d) (device_id d) (name d) (api_key_hash d) (is_active d)
       (created_at d) (Some timestamp).

End Device.

Module Reading.

Record t : Type := Make {
  id : UUID;
  device_id : string;
  metrics : SensorMetrics.t;
  timestamp : datetime
}.

(** [Reading.create]; [uuid4] and [utcnow] are what [uuid4()] and
    [datetime.utcnow()] answer if they are called. *)
Definition create (device_id : string) (metrics : SensorMetrics.t)
    (timestamp : option datetime) (uuid4 : UUID) (utcnow : datetime) : outcome t :=
  if String.eqb device_id EmptyString || String.eqb (strip device_id) EmptyString
  then Raise (ValueError "device_id cannot be empty")
  else Ret (Make uuid4 (strip device_id) metrics (default utcnow timestamp)).

(** The dictionary of [to_dict]; [str(self.id)] and the ISO rendering of
    the timestamp are kept as the values they print. *)
Record dict : Type := Dict {
  dict_id : UUID;
  dict_device_id : string;
  dict_metrics : gmap string float;
  dict_timestamp : datetime
}.

Definition to_dict (r : t) : dict :=
  Dict (id r) (device_id r) (SensorMetrics.to_dict (metrics r)) (timestamp r).

End Reading.

(* ===================================================================== *)
(** ** AggregationService *)
(* ===================================================================== *)

Module AggregationService.

Section Service.
(** The statistics dictionary that [get_stats] returns. *)
Context {Stats : Type}.

(** The service's cache with what the service reads from outside: the
    successive answers of [datetime.utcnow()], the answer of the reading
    repository to [get_stats], and the log of the calls made to it. *)
Record world : Type := World {
  _cache : gmap string (datetime * Stats);
  clock : nat → datetime;
  ticks : nat;
  reading_repo_get_stats : string → TimeRange.t → outcome Stats;
  get_stats_calls : list (string * TimeRange.t)
}.

Variable settings : Settings.t.

Definition set_cache (f : gmap string (datetime * Stats) → gmap string (datetime * Stats))
    (w : world) : world :=
  World (f (_cache w)) (clock w) (ticks w) (reading_repo_get_stats w)
        (get_stats_calls w).

(** [datetime.utcnow()] *)
Definition utcnow : prog world datetime :=
  λ w, (Ret (clock w (ticks w)),
        World (_cache w) (clock w) (S (ticks w)) (reading_repo_get_stats w)
              (get_stats_calls w)).

(** [await self._reading_repo.get_stats(device_id, time_range)] *)
Definition get_stats (device_id : string) (time_range : TimeRange.t)
    : prog world Stats :=
  λ w, (reading_repo_get_stats w device_id time_range,
        World (_cache w) (clock w) (ticks w) (reading_repo_get_stats w)
              (get_stats_calls w ++ [(device_id, time_range)])).

Definition _get_cached (key : string) : prog world (option Stats) :=
  do cache <- gets _cache;
  match cache !! key with
  | None => ret None
  | Some (cached_at, value) =>
      do now <- utcnow;
      if age_exceeds now cached_at (Settings.aggregation_cache_ttl settings)
      then modify (set_cache (delete key)) ;; ret None
      else ret (Some value)
  end.

Definition _set_cached (key : string) (value : Stats) : prog world unit :=
  do now <- utcnow;
  modify (set_cache (<[key := (now, value)]>)).

(** [f"stats:{device_id}:{range_str}"] *)
Definition cache_key (device_id range_str : string) : string :=
  "stats:" ++ device_id ++ ":" ++ range_str.

Definition get_device_stats (device_id range_str : string) : prog world Stats :=
  do now <- utcnow;
  do time_range <- lift (TimeRange.last range_str None now);
  let cache_key := cache_key device_id range_str in
  do cached <- _get_cached cache_key;
  match cached with
  | Some value => ret value
  | None =>
      do stats <- get_stats device_id time_range;
      _set_cached cache_key stats ;;
      ret stats
  end.

(** [clear_cache]: with a non-empty [device_id], the keys in which it
    occurs are collected and deleted; otherwise the cache is cleared. *)
Definition clear_cache (device_id : option string) : prog world unit :=
  modify (set_cache (λ cache,
    match device_id with
    | None | Some EmptyString => ∅
    | Some device_id =>
        let keys_to_remove :=
          List.filter (λ k, contains device_id k) (map fst (map_to_list cache)) in
        foldr delete cache keys_to_remove
    end)).

(** The lookup made by [get_device_stats] in [w] misses: the key has no
    entry, or one whose age at the lookup exceeds the TTL. The lookup
    reads the clock after [TimeRange.last] has read it once. *)
Definition misses (key : string) (w : world) : Prop :=
  match _cache w !! key with
  | None => True
  | Some (cached_at, _) =>
      age_exceeds (clock w (S (ticks w))) cached_at
                  (Settings.aggregation_cache_ttl settings) = true
  end.

(** What is said of a computation that fails during a miss: the
    exception reaches the caller and the cache mapping is the one before
    the call. *)
Definition failed_compute_keeps_cache (device_id range_str : string)
    (w : world) : Prop :=
  ∀ time_range e,
    TimeRange.last range_str None (clock w (ticks w)) = Ret time_range →
    misses (cache_key device_id range_str) w →
    reading_repo_get_stats w device_id time_range = Raise e →
    (get_device_stats device_id range_str w).1 = Raise e
    ∧ _cache (get_device_stats device_id range_str w).2 = _cache w.

End Service.

Arguments world : clear implicits.

(** Two devices whose identifiers share a prefix, each with a cached
    statistics entry. *)
Definition two_device_cache : gmap string (datetime * nat) :=
  <[cache_key "esp32_10" "24h" := (mk_datetime 2024 1 15 12 0 0, 10)]>
    (<[cache_key "esp32_1" "24h" := (mk_datetime 2024 1 15 12 0 0, 1)]> ∅).

Definition example_settings : Settings.t := Settings.Make "key-a, key-b" 60 1000.

(** A world whose clock stands at [now] seconds after 2024-01-15T12:00:00
    and whose repository answers [answer]. *)
Definition world_at (cache : gmap string (datetime * nat)) (seconds : Z)
    (answer : outcome nat) : world nat :=
  World cache (λ _, (mk_datetime 2024 1 15 12 0 0 + seconds * us_per_second)%Z) 0
        (λ _ _, answer) [].

End AggregationService.

(* ===================================================================== *)
(** ** IngestionService *)
(* ===================================================================== *)

Module IngestionService.

(** The calls that change something outside the service, as a mock of
    the collaborators would record them. *)
Inductive effect : Type :=
| ReadingCreate (reading : Reading.t)
| UpdateLastSeen (device_id : string) (timestamp : datetime)
| BroadcastToDevice (device_id : string) (message : Reading.dict).

(** The two tables, the manager the service was given ([None] when it
    was constructed without one), the frames delivered to sockets, and
    the log of effects. The devices table is keyed by [device_id], which
    the schema declares unique. *)
Record world : Type := World {
  devices : gmap string Device.t;
  readings : list Reading.t;
  _ws_manager : option WebSocketManager.manager;
  sent : list (WebSocket * frame Reading.dict);
  effects : list effect
}.

Section Service.
Variable settings : Settings.t.
(** What the outside answers during one call: the sockets, the clock
    read by [datetime.now(timezone.utc)], and [uuid4()]. *)
Variable net : WebSocket → channel Reading.dict.
Variable now : datetime.
Variable uuid4 : UUID.

(** [await self._device_repo.get_by_id(device_id)] *)
Definition device_repo_get_by_id (device_id : string) : prog world (option Device.t) :=
  gets (λ w, devices w !! device_id).

(** [await self._reading_repo.create(reading)] *)
Definition reading_repo_create (reading : Reading.t) : prog world Reading.t :=
  λ w, (Ret reading,
        World (devices w) (readings w ++ [reading]) (_ws_manager w) (sent w)
              (effects w ++ [ReadingCreate reading])).

(** [await self._device_repo.update_last_seen(device_id, timestamp)] *)
Definition device_repo_update_last_seen (device_id : string)
    (timestamp : datetime) : prog world unit :=
  λ w, (Ret tt,
        World (alter (λ d, Device.with_last_seen d timestamp) device_id (devices w))
              (readings w) (_ws_manager w) (sent w)
              (effects w ++ [UpdateLastSeen device_id timestamp])).

(** [if self._ws_manager is not None:
       await self._ws_manager.broadcast_to_device(device_id, message)] *)
Definition ws_broadcast_to_device (device_id : string) (message : Reading.dict)
    : prog world unit :=
  λ w, match _ws_manager w with
       | None => (Ret tt, w)
       | Some m =>
           let r := WebSocketManager.broadcast_to_device net device_id message m in
           (WebSocketManager.br_outcome r,
            World (devices w) (readings w) (Some (WebSocketManager.br_manager r))
                  (sent w ++ WebSocketManager.br_delivered r)
                  (effects w ++ [BroadcastToDevice device_id message]))
       end.

(** [try: SensorMetrics.from_dict(..) except ValueError as e:
       raise InvalidPayloadError(str(e))] *)
Definition parse_metrics (metrics_data : gmap string float) : prog world SensorMetrics.t :=
  match SensorMetrics.from_dict metrics_data with
  | Raise (ValueError msg) => raise (InvalidPayloadError msg)
  | o => lift o
  end.

Definition ingest (device_id : string) (metrics_data : gmap string float)
    (api_key : option string) : prog world Reading.t :=
  (* 1. Validate API key *)
  match api_key with
  | None | Some EmptyString => raise AuthenticationError
  | Some api_key =>
  if negb (bool_decide (api_key ∈ Settings.device_api_keys_set settings))
  then raise AuthenticationError
  else
  (* 2. Validate device exists *)
  do device <- device_repo_get_by_id device_id;
  match device with
  | None => raise (DeviceNotFoundError device_id)
  | Some device =>
  if negb (Device.is_active device) then raise (DeviceInactiveError device_id)
  else
  (* 3. Validate and parse metrics *)
  do metrics <- parse_metrics metrics_data;
  if negb (SensorMetrics.has_any_metric metrics)
  then raise (InvalidPayloadError "At least one metric value is required")
  else
  (* 4. Assign server-side timestamp *)
  let server_timestamp := now in
  (* 5. Create and persist reading *)
  do reading <- lift (Reading.create device_id metrics (Some server_timestamp) uuid4 now);
  do reading <- reading_repo_create reading;
  (* 6. Update device last_seen_at *)
  device_repo_update_last_seen device_id server_timestamp ;;
  (* 7. Broadcast to WebSocket subscribers *)
  ws_broadcast_to_device device_id (Reading.to_dict reading) ;;
  ret reading
  end
  end.

End Service.

(** *** What the claims say of a call *)

(** The payload is one that the validation of step 3 refuses: a metric
    outside its range, or no metric at all. *)
Definition invalid_metrics (metrics_data : gmap string float) : Prop :=
  (∃ v, metrics_data !! "temperature" = Some v
        ∧ SensorMetrics.between SensorMetrics.TEMP_MIN SensorMetrics.TEMP_MAX v = false)
  ∨ (∃ v, metrics_data !! "humidity" = Some v
        ∧ SensorMetrics.between SensorMetrics.HUMIDITY_MIN SensorMetrics.HUMIDITY_MAX v = false)
  ∨ (∃ v, metrics_data !! "voltage" = Some v
        ∧ SensorMetrics.between SensorMetrics.VOLTAGE_MIN SensorMetrics.VOLTAGE_MAX v = false)
  ∨ (metrics_data !! "temperature" = None ∧ metrics_data !! "humidity" = None
     ∧ metrics_data !! "voltage" = None).

(** The API key is one that step 1 accepts. *)
Definition valid_key (settings : Settings.t) (api_key : option string) : Prop :=
  ∃ k, api_key = Some k ∧ k ≠ EmptyString ∧ k ∈ Settings.device_api_keys_set settings.

(** The topic of the stream of all devices. *)
Definition wildcard : string := "__all__".

(** *** Example: one active device, one client on its topic and one on
    the wildcard topic *)

Definition esp32_01 : Device.t :=
  Device.Make 1 "esp32_01" (Some "Greenhouse") "hash" true
              (mk_datetime 2024 1 1 0 0 0) None.

Definition retired : Device.t :=
  Device.Make 2 "esp32_02" None "hash" false (mk_datetime 2024 1 1 0 0 0) None.

Definition dashboard_manager : WebSocketManager.manager :=
  WebSocketManager.run
    (WebSocketManager.connect 2 (WebSocketManager.connect 1 WebSocketManager.init))
    [WebSocketManager.Subscribe 1 "esp32_01"; WebSocketManager.Subscribe 2 wildcard].

Definition example_world : world :=
  World (<["esp32_02" := retired]> (<["esp32_01" := esp32_01]> ∅)) []
        (Some dashboard_manager) [] [].

Definition example_settings : Settings.t := Settings.Make "key-a, key-b" 60 1000.

Definition healthy_net (ws : WebSocket) : channel Reading.dict :=
  Channel CONNECTED (λ _, Ret tt).

Definition example_now : datetime := mk_datetime 2024 1 15 12 0 0.

Definition example_metrics : gmap string float :=
  <["humidity" := 60%float]> (<["temperature" := 25.5%float]> ∅).

Definition hot_metrics : gmap string float := <["temperature" := 90%float]> ∅.

Definition example_reading : Reading.t :=
  Reading.Make 77 "esp32_01"
    (SensorMetrics.Make (Some 25.5%float) (Some 60%float) None) example_now.

(** *** Repository calls that raise *)

(** What the database does to the three repository calls of one
    [ingest]: [None] when the call answers, the exception it raises
    otherwise ([session.execute] in [get_by_id] and [update_last_seen],
    [session.flush] in [create]). A call that raises has written no
    row. *)
Record faults : Type := Faults {
  get_by_id_raises : option exn;
  create_raises : option exn;
  update_last_seen_raises : option exn
}.

Definition no_faults : faults := Faults None None None.

(** A repository call under a fault. *)
Definition failing {A} (fault : option exn) (call : prog world A) : prog world A :=
  match fault with
  | Some e => raise e
  | None => call
  end.

Section Faulty.
Variable settings : Settings.t.
Variable net : WebSocket → channel Reading.dict.
Variable now : datetime.
Variable uuid4 : UUID.
Variable db : faults.

(** [ingest] over repositories that can raise. *)
Definition ingest_with (device_id : string) (metrics_data : gmap string float)
    (api_key : option string) : prog world Reading.t :=
  (* 1. Validate API key *)
  match api_key with
  | None | Some EmptyString => raise AuthenticationError
  | Some api_key =>
  if negb (bool_decide (api_key ∈ Settings.device_api_keys_set settings))
  then raise AuthenticationError
  else
  (* 2. Validate device exists *)
  do device <- failing (get_by_id_raises db) (device_repo_get_by_id device_id);
  match device with
  | None => raise (DeviceNotFoundError device_id)
  | Some device =>
  if negb (Device.is_active device) then raise (DeviceInactiveError device_id)
  else
  (* 3. Validate and parse metrics *)
  do metrics <- parse_metrics metrics_data;
  if negb (SensorMetrics.has_any_metric metrics)
  then raise (InvalidPayloadError "At least one metric value is required")
  else
  (* 4. Assign server-side timestamp *)
  let server_timestamp := now in
  (* 5. Create and persist reading *)
  do reading <- lift (Reading.create device_id metrics (Some server_timestamp) uuid4 now);
  do reading <- failing (create_raises db) (reading_repo_create reading);
  (* 6. Update device last_seen_at *)
  failing (update_last_seen_raises db)
          (device_repo_update_last_seen device_id server_timestamp) ;;
  (* 7. Broadcast to WebSocket subscribers *)
  ws_broadcast_to_device net device_id (Reading.to_dict reading) ;;
  ret reading
  end
  end.

End Faulty.

(** A database that loses the connection once the reading is flushed. *)
Definition update_fails : faults :=
  Faults None None (Some (CollaboratorError "connection lost")).

End IngestionService.

(* ===================================================================== *)
(** ** Traces of the manager interface *)
(* ===================================================================== *)

Module ManagerTrace.
Import WebSocketManager.

(** The calls a route or a service makes on the manager. A broadcast
    carries the sockets as they answer during that call. *)
Inductive api_call : Type :=
| Connect (ws : WebSocket)
| Disconnect (ws : WebSocket)
| SubscribeTo (ws : WebSocket) (device_id : string)
| UnsubscribeFrom (ws : WebSocket) (device_id : string)
| BroadcastTo (net : WebSocket → channel unit) (device_id : string).

Definition api_step (m : manager) (c : api_call) : manager :=
  match c with
  | Connect ws => connect ws m
  | Disconnect ws => disconnect ws m
  | SubscribeTo ws d => subscribe ws d m
  | UnsubscribeFrom ws d => unsubscribe ws d m
  | BroadcastTo net d => br_manager (broadcast_to_device net d tt m)
  end.

Definition api_run (m : manager) (cs : list api_call) : manager :=
  foldl api_step m cs.

(** The use the routes make of the interface: a connection is connected
    when it is not registered, and subscribed when it is. *)
Fixpoint well_used (m : manager) (cs : list api_call) : Prop :=
  match cs with
  | [] => True
  | c :: rest =>
      match c with
      | Connect ws => ¬ registered m ws
      | SubscribeTo ws _ => registered m ws
      | _ => True
      end ∧ well_used (api_step m c) rest
  end.

Definition always_up (ws : WebSocket) : channel unit :=
  Channel CONNECTED (λ _, Ret tt).

Definition always_down (ws : WebSocket) : channel unit :=
  Channel CONNECTED (λ _, Raise (CollaboratorError "broken pipe")).

(** A socket that was closed: [send_json] is not attempted on it. *)
Definition closed_two (ws : WebSocket) : channel unit :=
  if Nat.eqb ws 2 then Channel DISCONNECTED (λ _, Raise (CollaboratorError "closed"))
  else Channel CONNECTED (λ _, Ret tt).

Definition example_trace : list api_call :=
  [Connect 1; Connect 2; SubscribeTo 1 "esp32_01"; SubscribeTo 2 "esp32_01";
   SubscribeTo 2 "__all__"; BroadcastTo always_down "esp32_01";
   UnsubscribeFrom 2 "__all__"; Connect 1; SubscribeTo 1 "esp32_02";
   Disconnect 2; BroadcastTo always_up "esp32_02"].

End ManagerTrace.

(* ===================================================================== *)
(** ** Realtime routes *)
(* ===================================================================== *)

Module RealtimeRoutes.
Import WebSocketManager.

(** The exceptions of a socket call, as the handlers tell them apart:
    [WebSocketDisconnect], a [ValueError] (a text that is not JSON), and
    any other exception. *)
Inductive socket_exn : Type :=
| WebSocketDisconnect
| JsonValueError
| OtherException (msg : string).

(** What one [await websocket.receive_json()] gives: a JSON object, of
    which the handler reads the keys [action] and [device_id] (strings,
    or absent), or an exception. A JSON value that is not an object makes
    [data.get] raise, which is an [OtherException] here. *)
Inductive received : Type :=
| Message (action : option string) (device_id : option string)
| ReceiveRaises (e : socket_exn).

(** The frames a handler sends: [{"type": "pong"}], the frame of
    [send_ack] and the frame of [send_error]. *)
Inductive out_frame : Type :=
| Pong
| Ack (message : string)
| Error (error code : string).

(** The socket of the session: its state, and whether a [send_json]
    returns ([None]) or raises. *)
Record socket : Type := Socket {
  sock_state : WebSocketState;
  sock_send : out_frame → option socket_exn
}.

(** [manager.send_ack] and [manager.send_error]: a send when the socket
    is [CONNECTED], every exception swallowed. *)
Definition guarded_send (sock : socket) (f : out_frame) (out : list out_frame)
    : list out_frame :=
  if WebSocketState_eqb (sock_state sock) CONNECTED then
    match sock_send sock f with
    | None => (out ++ [f])%list
    | Some _ => out
    end
  else out.

Definition send_ack (sock : socket) (message : string) (out : list out_frame)
    : list out_frame :=
  guarded_send sock (Ack message) out.

Definition send_error (sock : socket) (error code : string)
    (out : list out_frame) : list out_frame :=
  guarded_send sock (Error error code) out.

(** [await websocket.send_json({"type": "pong"})], made on the socket
    itself. *)
Definition send_pong (sock : socket) (out : list out_frame)
    : option socket_exn * list out_frame :=
  match sock_send sock Pong with
  | None => (None, (out ++ [Pong])%list)
  | Some e => (Some e, out)
  end.

(** [f"{action}"] *)
Definition str_action (action : option string) : string :=
  match action with Some a => a | None => "None" end.

(** A value of the key [device_id] that the handler takes: a non-empty
    string. *)
Definition truthy (device_id : option string) : option string :=
  match device_id with
  | Some EmptyString | None => None
  | Some d => Some d
  end.

Definition is_action (action : option string) (name : string) : bool :=
  match action with Some a => String.eqb a name | None => false end.

(** The body of the inner [try] of [stream_device_readings], from
    [receive_json] on: the exception that leaves it, if any, the manager
    and the frames sent. *)
Definition device_try (sock : socket) (ws : WebSocket) (r : received)
    (m : manager) (out : list out_frame)
    : option socket_exn * manager * list out_frame :=
  match r with
  | ReceiveRaises e => (Some e, m, out)
  | Message action device_id =>
      if is_action action "ping" then
        let '(e, out') := send_pong sock out in (e, m, out')
      else if is_action action "subscribe" then
        match truthy device_id with
        | Some new_device_id =>
            (None, subscribe ws new_device_id m,
             send_ack sock ("Subscribed to device: " ++ new_device_id) out)
        | None => (None, m, out)
        end
      else if is_action action "unsubscribe" then
        match truthy device_id with
        | Some unsub_device_id =>
            (None, unsubscribe ws unsub_device_id m,
             send_ack sock ("Unsubscribed from device: " ++ unsub_device_id) out)
        | None => (None, m, out)
        end
      else
        (None, m,
         send_error sock ("Unknown action: " ++ str_action action) "UNKNOWN_ACTION" out)
  end.


(** One turn of [while True]: the inner [try] with its
    [except ValueError]. *)
Definition turn (sock : socket)
    (try_body : received → manager → list out_frame
                → option socket_exn * manager * list out_frame)
    (r : received) (m : manager) (out : list out_frame)
    : option socket_exn * manager * list out_frame :=
  match try_body r m out with
  | (Some JsonValueError, m', out') =>
      (None, m', send_error sock "Invalid JSON message" "INVALID_JSON" out')
  | res => res
  end.

(** The loop over what the socket gives, in order. It ends with the
    exception that leaves a turn; when the socket has given nothing
    more the handler is waiting in [receive_json] ([None]). *)
Fixpoint message_loop (sock : socket)
    (try_body : received → manager → list out_frame
                → option socket_exn * manager * list out_frame)
    (inbox : list received) (m : manager) (out : list out_frame)
    : option socket_exn * manager * list out_frame :=
  match inbox with
  | [] => (None, m, out)
  | r :: inbox' =>
      match turn sock try_body r m out with
      | (None, m', out') => message_loop sock try_body inbox' m' out'
      | res => res
      end
  end.

(** How a handler stands after the socket gave [inbox]: still in its
    loop, returned (the disconnect was caught), or left by an
    exception. *)
Inductive session_end : Type :=
| Open
| Returned
| Propagated (e : socket_exn).

(** The outer [try], its [except WebSocketDisconnect] and its
    [finally: await manager.disconnect(websocket)]. *)
Definition close (ws : WebSocket)
    (res : option socket_exn * manager * list out_frame)
    : session_end * manager * list out_frame :=
  match res with
  | (None, m, out) => (Open, m, out)
  | (Some WebSocketDisconnect, m, out) => (Returned, disconnect ws m, out)
  | (Some e, m, out) => (Propagated e, disconnect ws m, out)
  end.

(** [stream_device_readings], once [websocket.accept()] has returned. *)
Definition stream_device_readings (sock : socket) (ws : WebSocket)
    (device_id : string) (inbox : list received) (m : manager)
    : session_end * manager * list out_frame :=
  let m := connect ws m in
  let m := subscribe ws device_id m in
  let out := send_ack sock ("Subscribed to device: " ++ device_id) [] in
  close ws (message_loop sock (device_try sock ws) inbox m out).


(** [m] is [m0] with, in addition, the connection [ws] registered and
    subscribed to some topics: the other connections are where they are
    in [m0]. *)
Definition session_of (m0 : manager) (ws : WebSocket) (m : manager) : Prop :=
  mutually_consistent m ∧ no_empty_topic m ∧ registered m ws
  ∧ (∀ ws' d, ws' ≠ ws → ws' ∈ subscribers m d ↔ ws' ∈ subscribers m0 d)
  ∧ (∀ ws', ws' ≠ ws →
       _connection_subscriptions m !! ws' = _connection_subscriptions m0 !! ws').

Definition good_socket : socket := Socket CONNECTED (λ _, None).

Definition example_inbox : list received :=
  [Message (Some "ping") None;
   Message (Some "subscribe") (Some "esp32_02");
   ReceiveRaises JsonValueError;
   Message (Some "unsubscribe") (Some "esp32_01");
   Message (Some "subscribe") None;
   Message (Some "reboot") None;
   ReceiveRaises WebSocketDisconnect;
   Message (Some "subscribe") (Some "esp32_03")].

(** *** A session among the other tasks *)

(** What happens while a handler is in its loop: its socket gives
    something, or, while the handler is suspended in [receive_json] or
    in a send, another task makes a call on the manager: another session
    on its own socket, or a broadcast of [ingest], which disconnects the
    sockets whose send raised. The calls the handler makes on the
    manager do not suspend, so that each call of another task falls
    between two turns. *)
Inductive event : Type :=
| Received (r : received)
| Elsewhere (c : ManagerTrace.api_call).

(** The loop of a handler, the calls of the other tasks made on the
    manager where they fall. *)
Fixpoint shared_loop (sock : socket)
    (try_body : received → manager → list out_frame
                → option socket_exn * manager * list out_frame)
    (events : list event) (m : manager) (out : list out_frame)
    : option socket_exn * manager * list out_frame :=
  match events with
  | [] => (None, m, out)
  | Elsewhere c :: events' =>
      shared_loop sock try_body events' (ManagerTrace.api_step m c) out
  | Received r :: events' =>
      match turn sock try_body r m out with
      | (None, m', out') => shared_loop sock try_body events' m' out'
      | res => res
      end
  end.

(** The calls the other tasks have made by the time the loop is left
    (all of them, when it is not left). *)
Fixpoint calls_meanwhile (sock : socket)
    (try_body : received → manager → list out_frame
                → option socket_exn * manager * list out_frame)
    (events : list event) (m : manager) (out : list out_frame)
    : list ManagerTrace.api_call :=
  match events with
  | [] => []
  | Elsewhere c :: events' =>
      c :: calls_meanwhile sock try_body events' (ManagerTrace.api_step m c) out
  | Received r :: events' =>
      match turn sock try_body r m out with
      | (None, m', out') => calls_meanwhile sock try_body events' m' out'
      | _ => []
      end
  end.

(** [stream_device_readings] among the other tasks, once
    [websocket.accept()] has returned; the first of their calls can fall
    in the send of the first acknowledgement. *)
Definition shared_stream_device_readings (sock : socket) (ws : WebSocket)
    (device_id : string) (events : list event) (m : manager)
    : session_end * manager * list out_frame :=
  let m := connect ws m in
  let m := subscribe ws device_id m in
  let out := send_ack sock ("Subscribed to device: " ++ device_id) [] in
  close ws (shared_loop sock (device_try sock ws) events m out).

(** The calls the other tasks have made during that session. *)
Definition others_during (sock : socket) (ws : WebSocket)
    (device_id : string) (events : list event) (m : manager)
    : list ManagerTrace.api_call :=
  calls_meanwhile sock (device_try sock ws) events
    (subscribe ws device_id (connect ws m))
    (send_ack sock ("Subscribed to device: " ++ device_id) []).

(** A call of another task that leaves the connection [ws] to its
    session: a call on another connection, or a broadcast whose send on
    the socket of [ws] does not raise. *)
Definition spares (ws : WebSocket) (c : ManagerTrace.api_call) : Prop :=
  match c with
  | ManagerTrace.Connect ws' | ManagerTrace.Disconnect ws'
  | ManagerTrace.SubscribeTo ws' _ | ManagerTrace.UnsubscribeFrom ws' _ => ws' ≠ ws
  | ManagerTrace.BroadcastTo net device_id => send_raises net device_id tt ws = false
  end.

(** The manager [a] that the other tasks alone have made, and the
    manager [m] of the session of [ws] among them. *)
Definition beside (ws : WebSocket) (a m : manager) : Prop :=
  mutually_consistent a ∧ no_empty_topic a ∧ ¬ registered a ws
  ∧ session_of a ws m.

(** Sockets of which the one of connection 2 is broken. *)
Definition two_is_down (ws : WebSocket) : channel unit :=
  if Nat.eqb ws 2
  then Channel CONNECTED (λ _, Raise (CollaboratorError "connection reset"))
  else Channel CONNECTED (λ _, Ret tt).

(** A session during which a broadcast disconnects connection 2, a
    session opens for connection 5 and connection 1 leaves a topic; the
    client of the session disconnects before connection 3 does. *)
Definition example_events : list event :=
  [Received (Message (Some "subscribe") (Some "esp32_02"));
   Elsewhere (ManagerTrace.BroadcastTo two_is_down "esp32_01");
   Elsewhere (ManagerTrace.Connect 5);
   Elsewhere (ManagerTrace.SubscribeTo 5 "esp32_02");
   Received (Message (Some "ping") None);
   Elsewhere (ManagerTrace.UnsubscribeFrom 1 "esp32_01");
   Received (ReceiveRaises WebSocketDisconnect);
   Elsewhere (ManagerTrace.Disconnect 3)].

(** A session whose socket breaks under a broadcast: the broadcast
    disconnects the connection, the client subscribes once more, then
    disconnects. *)
Definition broken_session : list event :=
  [Elsewhere (ManagerTrace.BroadcastTo ManagerTrace.always_down "esp32_01");
   Received (Message (Some "subscribe") (Some "esp32_02"));
   Received (ReceiveRaises WebSocketDisconnect)].

End RealtimeRoutes.

(* ===================================================================== *)
(** ** Duration strings *)
(* ===================================================================== *)

Module Durations.

(** The strings of decimal digits. *)
Fixpoint all_digits (s : string) : bool :=
  match s with
  | EmptyString => true
  | String c s' => is_digit c && all_digits s'
  end.

(** The length of one unit of a duration string, in microseconds. *)
Definition unit_microseconds (unit : ascii) : Z :=
  if Ascii.eqb unit "m" then 60 * us_per_second
  else if Ascii.eqb unit "h" then 3600 * us_per_second
  else if Ascii.eqb unit "d" then us_per_day
  else 7 * us_per_day.

(** What may follow the unit letter: nothing, or one newline. *)
Definition line_end (suffix : string) : bool :=
  String.eqb suffix EmptyString || String.eqb suffix (String "010" EmptyString).

End Durations.

(* ===================================================================== *)
(** ** Device entity and DeviceService *)
(* ===================================================================== *)

Module DeviceEntity.

(** The strings here are strings of 8-bit characters, where Python has
    strings of code points. The two agree on the ASCII strings, and so
    do [len], [strip] and [isalnum] as they are written here; outside
    ASCII, [str.isalnum] accepts the letters and digits of every
    script. *)
Definition is_ascii_char (c : ascii) : bool := (nat_of_ascii c <? 128)%nat.

(** [c.isalnum()] on one ASCII character. *)
Definition isalnum (c : ascii) : bool :=
  let n := nat_of_ascii c in
  ((48 <=? n)%nat && (n <=? 57)%nat)
  || ((65 <=? n)%nat && (n <=? 90)%nat)
  || ((97 <=? n)%nat && (n <=? 122)%nat).

(** [c.isalnum() or c in "_-"] *)
Definition allowed (c : ascii) : bool :=
  isalnum c || Ascii.eqb c "_" || Ascii.eqb c "-".

(** [all(p(c) for c in s)] *)
Fixpoint all_chars (p : ascii → bool) (s : string) : bool :=
  match s with
  | EmptyString => true
  | String c s' => p c && all_chars p s'
  end.

(** [s.isascii()] *)
Definition is_ascii (s : string) : bool := all_chars is_ascii_char s.

(** [name.strip() if name else None] *)
Definition clean_name (name : option string) : option string :=
  match name with
  | Some EmptyString | None => None
  | Some n => Some (strip n)
  end.

(** [Device.create]; [uuid4] and [utcnow] are what [uuid4()] and
    [datetime.utcnow()] answer if they are called. *)
Definition create (device_id api_key_hash : string) (name : option string)
    (created_at : option datetime) (uuid4 : UUID) (utcnow : datetime)
    : outcome Device.t :=
  if String.eqb device_id EmptyString || String.eqb (strip device_id) EmptyString
  then Raise (ValueError "device_id cannot be empty")
  else if (64 <? String.length device_id)%nat
  then Raise (ValueError "device_id cannot exceed 64 characters")
  else if negb (all_chars allowed device_id)
  then Raise (ValueError "device_id can only contain alphanumeric characters, underscores, and hyphens")
  else Ret (Device.Make uuid4 (strip device_id) (clean_name name) api_key_hash
                        true (default utcnow created_at) None).

(** [Device.deactivate] *)
Definition deactivate (d : Device.t) : Device.t :=
  Device.Make (Device.id d) (Device.device_id d) (Device.name d)
              (Device.api_key_hash d) false (Device.created_at d)
              (Device.last_seen_at d).

End DeviceEntity.

Module DeviceService.

(** The exceptions of the service: its own two, and what comes up from
    the entity or the repository. *)
Inductive device_exn : Type :=
| DeviceExistsError (device_id : string)
| DeviceNotFoundError (device_id : string)
| Propagated (e : exn).

Inductive result (A : Type) : Type :=
| Ok (a : A)
| Err (e : device_exn).
Arguments Ok {A} a.
Arguments Err {A} e.

(** The dictionary [register_device] returns. *)
Record registration : Type := Registration {
  reg_id : UUID;
  reg_device_id : string;
  reg_name : option string;
  reg_api_key : string;
  reg_created_at : datetime
}.

Section Service.
(** [hashlib.sha256(api_key.encode()).hexdigest()] *)
Variable hash_api_key : string → string.
(** What [secrets.token_urlsafe(32)], [datetime.now(UTC)] and [uuid4()]
    answer during the call. *)
Variable raw_api_key : string.
Variable now : datetime.
Variable uuid4 : UUID.

(** [DeviceRepository.create]: the insert of a row, refused by the
    unique index when the identifier is taken. *)
Definition device_repo_create (device : Device.t) (devices : gmap string Device.t)
    : result unit * gmap string Device.t :=
  match devices !! Device.device_id device with
  | Some _ => (Err (Propagated (CollaboratorError "IntegrityError")), devices)
  | None => (Ok tt, <[Device.device_id device := device]> devices)
  end.

Definition register_device (device_id : string) (name : option string)
    (devices : gmap string Device.t)
    : result registration * gmap string Device.t :=
  match devices !! device_id with
  | Some _ => (Err (DeviceExistsError device_id), devices)
  | None =>
      let api_key_hash := hash_api_key raw_api_key in
      match DeviceEntity.create device_id api_key_hash name (Some now) uuid4 now with
      | Raise e => (Err (Propagated e), devices)
      | Ret device =>
          match device_repo_create device devices with
          | (Err e, devices') => (Err e, devices')
          | (Ok _, devices') =>
              (Ok (Registration (Device.id device) (Device.device_id device)
                                (Device.name device) raw_api_key
                                (Device.created_at device)),
               devices')
          end
      end
  end.

(** [DeviceRepository.deactivate]: the update that sets [is_active] to
    [False] on the row of the identifier; [True] when a row was
    updated. *)
Definition device_repo_deactivate (device_id : string)
    (devices : gmap string Device.t) : bool * gmap string Device.t :=
  match devices !! device_id with
  | Some d => (true, <[device_id := DeviceEntity.deactivate d]> devices)
  | None => (false, devices)
  end.

Definition deactivate_device (device_id : string)
    (devices : gmap string Device.t) : result string * gmap string Device.t :=
  let '(success, devices') := device_repo_deactivate device_id devices in
  if negb success then (Err (DeviceNotFoundError device_id), devices')
  else (Ok device_id, devices').

End Service.

(** An example: the hash is a stand-in that tags the key. *)
Definition example_hash (k : string) : string := "sha256:" ++ k.

End DeviceService.

(* ===================================================================== *)
(** * Properties *)
(* ===================================================================== *)

Section ManagerFacts.
Import WebSocketManager.

Implicit Types (m : manager) (ws : WebSocket) (d : string).

Lemma lookup_discard_subscriber ws d (subs : gmap string (gset WebSocket)) d' :
  discard_subscriber ws d subs !! d' =
    if decide (d = d') then subs !! d ≫= pruned ws else subs !! d'.
Proof.
  unfold discard_subscriber, pruned.
  destruct (decide (d = d')) as [<-|Hne].
  - destruct (subs !! d) as [s|] eqn:Hs; simpl; [|done].
    case_decide; [apply lookup_delete_eq | apply lookup_insert_eq].
  - destruct (subs !! d) as [s|] eqn:Hs; simpl; [|done].
    case_decide; [by apply lookup_delete_ne | by apply lookup_insert_ne].
Qed.

(** Walking a list of topics prunes exactly the listed ones. *)
Lemma lookup_foldr_discard ws (l : list string)
    (subs : gmap string (gset WebSocket)) d' :
  foldr (discard_subscriber ws) subs l !! d' =
    if decide (d' ∈ l) then subs !! d' ≫= pruned ws else subs !! d'.
Proof.
  induction l as [|d l IH]; cbn [foldr].
  - case_decide as H; [by apply elem_of_nil in H | done].
  - rewrite lookup_discard_subscriber.
    destruct (decide (d = d')) as [->|Hne]; rewrite IH.
    + rewrite (decide_True (P := d' ∈ d' :: l)) by apply list_elem_of_here.
      destruct (decide (d' ∈ l)); [|done].
      destruct (subs !! d') as [s|]; simpl; [|done].
      unfold pruned. case_decide; simpl; [done|].
      replace (s ∖ {[ws]} ∖ {[ws]}) with (s ∖ {[ws]}) by set_solver.
      by rewrite decide_False.
    + destruct (decide (d' ∈ l)) as [Hin|Hin].
      * rewrite decide_True; [done | by apply list_elem_of_further].
      * rewrite decide_False; [done|].
        intros [?|?]%elem_of_cons; congruence.
Qed.

Lemma elem_of_pruned ws (s : gset WebSocket) ws' :
  ws' ∈ default ∅ (pruned ws s) ↔ ws' ∈ s ∧ ws' ≠ ws.
Proof. unfold pruned. case_decide; simpl; set_solver. Qed.

Lemma pruned_nonempty ws (s : gset WebSocket) : pruned ws s ≠ Some ∅.
Proof. unfold pruned. case_decide; congruence. Qed.

(** *** Membership after each operation *)

Lemma elem_of_subscribers_subscribe ws d m ws' d' :
  ws' ∈ subscribers (subscribe ws d m) d' ↔
    (ws' = ws ∧ d' = d) ∨ ws' ∈ subscribers m d'.
Proof.
  unfold subscribers, subscribe; simpl.
  destruct (decide (d = d')) as [<-|Hne].
  - rewrite lookup_alter_eq.
    destruct (_device_subscribers m !! d) as [s|] eqn:Hs; simpl.
    + rewrite Hs; simpl. set_solver.
    + rewrite lookup_insert_eq; simpl. set_solver.
  - rewrite lookup_alter_ne by done.
    destruct (_device_subscribers m !! d) as [s|] eqn:Hs; simpl.
    + set_solver.
    + rewrite lookup_insert_ne by done. set_solver.
Qed.

Lemma elem_of_subscriptions_subscribe ws d m ws' d' :
  d' ∈ subscriptions (subscribe ws d m) ws' ↔
    (ws' = ws ∧ d' = d ∧ registered m ws) ∨ d' ∈ subscriptions m ws'.
Proof.
  unfold subscriptions, subscribe, registered; simpl.
  destruct (_connection_subscriptions m !! ws) as [t|] eqn:Ht.
  - destruct (decide (ws = ws')) as [<-|Hne].
    + rewrite lookup_insert_eq, Ht; simpl.
      rewrite elem_of_union, elem_of_singleton. naive_solver.
    + rewrite lookup_insert_ne by done. naive_solver.
  - split; [tauto|]. intros [(_ & _ & [? ?])|?]; [congruence|done].
Qed.

Lemma elem_of_subscribers_unsubscribe ws d m ws' d' :
  ws' ∈ subscribers (unsubscribe ws d m) d' ↔
    ws' ∈ subscribers m d' ∧ ¬ (ws' = ws ∧ d' = d).
Proof.
  unfold subscribers, unsubscribe; simpl.
  rewrite lookup_discard_subscriber.
  destruct (decide (d = d')) as [<-|Hne]; [|naive_solver].
  destruct (_device_subscribers m !! d) as [s|]; simpl.
  - rewrite elem_of_pruned. naive_solver.
  - set_solver.
Qed.

Lemma elem_of_subscriptions_unsubscribe ws d m ws' d' :
  d' ∈ subscriptions (unsubscribe ws d m) ws' ↔
    d' ∈ subscriptions m ws' ∧ ¬ (ws' = ws ∧ d' = d).
Proof.
  unfold subscriptions, unsubscribe; simpl.
  destruct (_connection_subscriptions m !! ws) as [t|] eqn:Ht.
  - destruct (decide (ws = ws')) as [<-|Hne].
    + rewrite lookup_insert_eq, Ht; simpl. set_solver.
    + rewrite lookup_insert_ne by done. naive_solver.
  - destruct (decide (ws = ws')) as [<-|Hne]; [|naive_solver].
    rewrite Ht; simpl. set_solver.
Qed.

Lemma lookup_subscribers_disconnect ws m d' :
  _device_subscribers (disconnect ws m) !! d' =
    if decide (d' ∈ subscriptions m ws)
    then _device_subscribers m !! d' ≫= pruned ws
    else _device_subscribers m !! d'.
Proof.
  unfold disconnect; simpl. rewrite lookup_foldr_discard.
  destruct (decide (d' ∈ subscriptions m ws)) as [Hin|Hin].
  - rewrite decide_True; [done | by apply elem_of_elements].
  - rewrite decide_False; [done | by rewrite elem_of_elements].
Qed.

Lemma elem_of_subscribers_disconnect ws m ws' d' :
  ws' ∈ subscribers (disconnect ws m) d' ↔
    ws' ∈ subscribers m d' ∧ ¬ (ws' = ws ∧ d' ∈ subscriptions m ws).
Proof.
  unfold subscribers at 1. rewrite lookup_subscribers_disconnect.
  unfold subscribers.
  destruct (decide (d' ∈ subscriptions m ws)) as [Hin|Hin]; [|naive_solver].
  destruct (_device_subscribers m !! d') as [s|]; simpl.
  - rewrite elem_of_pruned. naive_solver.
  - set_solver.
Qed.

Lemma elem_of_subscriptions_disconnect ws m ws' d' :
  d' ∈ subscriptions (disconnect ws m) ws' ↔
    ws' ≠ ws ∧ d' ∈ subscriptions m ws'.
Proof.
  unfold subscriptions at 1, disconnect; simpl.
  destruct (decide (ws = ws')) as [<-|Hne].
  - rewrite lookup_delete_eq; simpl. set_solver.
  - rewrite lookup_delete_ne by done. unfold subscriptions. naive_solver.
Qed.

Lemma registered_subscribe ws d m ws' :
  registered (subscribe ws d m) ws' ↔ registered m ws'.
Proof.
  unfold registered, subscribe; simpl.
  destruct (_connection_subscriptions m !! ws) as [t|] eqn:Ht; [|done].
  destruct (decide (ws = ws')) as [<-|Hne].
  - rewrite lookup_insert_eq, Ht. split; eauto.
  - by rewrite lookup_insert_ne.
Qed.

Lemma registered_unsubscribe ws d m ws' :
  registered (unsubscribe ws d m) ws' ↔ registered m ws'.
Proof.
  unfold registered, unsubscribe; simpl.
  destruct (_connection_subscriptions m !! ws) as [t|] eqn:Ht; [|done].
  destruct (decide (ws = ws')) as [<-|Hne].
  - rewrite lookup_insert_eq, Ht. split; eauto.
  - by rewrite lookup_insert_ne.
Qed.

Lemma registered_disconnect ws m ws' :
  registered (disconnect ws m) ws' ↔ ws' ≠ ws ∧ registered m ws'.
Proof.
  unfold registered, disconnect; simpl.
  destruct (decide (ws = ws')) as [<-|Hne].
  - rewrite lookup_delete_eq. split; [by intros [? ?] | by intros [? _]].
  - rewrite lookup_delete_ne by done. naive_solver.
Qed.

(** *** Preservation of the invariant *)

Lemma init_consistent : mutually_consistent init ∧ no_empty_topic init.
Proof.
  split.
  - intros ws d. unfold subscribers, subscriptions; simpl.
    rewrite !lookup_empty; simpl. set_solver.
  - intros d. unfold init; simpl. by rewrite lookup_empty.
Qed.

Lemma connect_consistent ws m :
  ¬ registered m ws →
  mutually_consistent m → no_empty_topic m →
  mutually_consistent (connect ws m) ∧ no_empty_topic (connect ws m).
Proof.
  intros Hfresh Hc Hne. split; [|exact Hne].
  intros ws' d. specialize (Hc ws' d). revert Hc.
  unfold subscribers, subscriptions, connect; simpl.
  destruct (decide (ws = ws')) as [<-|Hneq].
  - rewrite lookup_insert_eq; simpl.
    assert (_connection_subscriptions m !! ws = None) as ->.
    { apply eq_None_not_Some. exact Hfresh. }
    simpl. done.
  - by rewrite lookup_insert_ne.
Qed.

Lemma subscribe_consistent ws d m :
  registered m ws →
  mutually_consistent m → no_empty_topic m →
  mutually_consistent (subscribe ws d m) ∧ no_empty_topic (subscribe ws d m).
Proof.
  intros Hreg Hc Hne. split.
  - intros ws' d'.
    rewrite elem_of_subscribers_subscribe, elem_of_subscriptions_subscribe.
    specialize (Hc ws' d'). naive_solver.
  - intros d'. unfold subscribe; simpl.
    destruct (decide (d = d')) as [<-|Hneq].
    + rewrite lookup_alter_eq.
      destruct (_device_subscribers m !! d) as [s|] eqn:Hs; simpl.
      * rewrite Hs; simpl. intros Heq. apply (inj Some) in Heq. set_solver.
      * rewrite lookup_insert_eq; simpl.
        intros Heq. apply (inj Some) in Heq. set_solver.
    + rewrite lookup_alter_ne by done.
      destruct (_device_subscribers m !! d) as [s|] eqn:Hs; simpl.
      * apply Hne.
      * rewrite lookup_insert_ne by done. apply Hne.
Qed.

Lemma unsubscribe_consistent ws d m :
  mutually_consistent m → no_empty_topic m →
  mutually_consistent (unsubscribe ws d m) ∧ no_empty_topic (unsubscribe ws d m).
Proof.
  intros Hc Hne. split.
  - intros ws' d'.
    rewrite elem_of_subscribers_unsubscribe, elem_of_subscriptions_unsubscribe.
    specialize (Hc ws' d'). naive_solver.
  - intros d'. unfold unsubscribe; simpl.
    rewrite lookup_discard_subscriber.
    destruct (decide (d = d')) as [<-|Hneq]; [|apply Hne].
    destruct (_device_subscribers m !! d) as [s|]; simpl; [|done].
    apply pruned_nonempty.
Qed.

Lemma disconnect_consistent ws m :
  mutually_consistent m → no_empty_topic m →
  mutually_consistent (disconnect ws m) ∧ no_empty_topic (disconnect ws m).
Proof.
  intros Hc Hne. split.
  - intros ws' d'.
    rewrite elem_of_subscribers_disconnect, elem_of_subscriptions_disconnect.
    pose proof (Hc ws' d'). pose proof (Hc ws d').
    destruct (decide (ws' = ws)) as [->|?]; naive_solver.
  - intros d'. rewrite lookup_subscribers_disconnect.
    case_decide; [|apply Hne].
    destruct (_device_subscribers m !! d') as [s|]; simpl; [|done].
    apply pruned_nonempty.
Qed.

Lemma step_consistent m c :
  subscribes_registered m [c] →
  mutually_consistent m → no_empty_topic m →
  mutually_consistent (step m c) ∧ no_empty_topic (step m c).
Proof.
  destruct c as [ws d|ws d]; simpl; intros [Hreg _].
  - by apply subscribe_consistent.
  - by apply unsubscribe_consistent.
Qed.

Lemma subscribes_registered_take m cs k :
  subscribes_registered m cs → subscribes_registered m (take k cs).
Proof.
  revert m k. induction cs as [|c cs IH]; intros m [|k]; simpl; try done.
  intros [? ?]. split; [done|]. by apply IH.
Qed.

Lemma run_consistent m cs :
  mutually_consistent m → no_empty_topic m → subscribes_registered m cs →
  mutually_consistent (run m cs) ∧ no_empty_topic (run m cs).
Proof.
  revert m. induction cs as [|c cs IH]; intros m Hc Hne Hreg; [done|].
  destruct Hreg as [Hhead Htail]. unfold run; cbn [foldl].
  destruct (step_consistent m c) as [Hc' Hne']; [by split|done|done|].
  by apply IH.
Qed.

(** C3. Along every sequence of subscribe and unsubscribe calls whose
    subscribes are made on registered connections, started in a state of
    the index that is consistent, the index is consistent after each
    call: a connection is in a topic's subscriber set iff the topic is in
    the connection's topic set, and no topic is mapped to the empty set. *)
Theorem subscription_index_stays_consistent m (cs : list call) (k : nat) :
  mutually_consistent m → no_empty_topic m →
  subscribes_registered m cs →
  mutually_consistent (run m (take k cs)) ∧ no_empty_topic (run m (take k cs)).
Proof.
  intros Hc Hne Hreg. apply run_consistent; [done|done|].
  by apply subscribes_registered_take.
Qed.

Lemma two_clients_consistent :
  mutually_consistent two_clients ∧ no_empty_topic two_clients.
Proof.
  unfold two_clients.
  destruct init_consistent as [H0 H0'].
  destruct (connect_consistent 1 init) as [H1 H1']; [|done|done|].
  { intros [? H]. vm_compute in H. discriminate. }
  apply connect_consistent; [|done|done].
  intros [? H]. vm_compute in H. discriminate.
Qed.

Lemma subscription_index_stays_consistent_witness :
  mutually_consistent (run two_clients example_calls)
  ∧ no_empty_topic (run two_clients example_calls).
Proof.
  apply (subscription_index_stays_consistent two_clients example_calls 6).
  - apply two_clients_consistent.
  - apply two_clients_consistent.
  - repeat split; eexists; vm_compute; reflexivity.
Defined.

(** C10. Subscribing a connection that is not in the connection index
    puts it in the topic's subscriber set and leaves the connection index
    as it was, without it; the two mappings are then inconsistent, and a
    disconnect of that connection leaves it in the topic's subscriber
    set. *)
Theorem subscribe_unregistered_strays m ws d :
  ¬ registered m ws →
  ws ∈ subscribers (subscribe ws d m) d
  ∧ _connection_subscriptions (subscribe ws d m) = _connection_subscriptions m
  ∧ ¬ registered (subscribe ws d m) ws
  ∧ ¬ mutually_consistent (subscribe ws d m)
  ∧ ws ∈ subscribers (disconnect ws (subscribe ws d m)) d.
Proof.
  intros Hunreg.
  assert (_connection_subscriptions m !! ws = None) as Hnone
    by (apply eq_None_not_Some; exact Hunreg).
  assert (ws ∈ subscribers (subscribe ws d m) d) as Hin
    by (apply elem_of_subscribers_subscribe; by left).
  assert (subscriptions (subscribe ws d m) ws = ∅) as Hsubs.
  { unfold subscriptions, subscribe; simpl. by rewrite !Hnone. }
  split_and!.
  - exact Hin.
  - unfold subscribe; simpl. by rewrite Hnone.
  - by rewrite registered_subscribe.
  - intros Hc. apply Hc in Hin. rewrite Hsubs in Hin. set_solver.
  - apply elem_of_subscribers_disconnect. split; [exact Hin|].
    rewrite Hsubs. set_solver.
Qed.

Lemma subscribe_unregistered_strays_witness :
  7 ∈ subscribers stray_subscriber "esp32_01"
  ∧ ¬ registered stray_subscriber 7
  ∧ ¬ mutually_consistent stray_subscriber
  ∧ 7 ∈ subscribers (disconnect 7 stray_subscriber) "esp32_01".
Proof.
  destruct (subscribe_unregistered_strays init 7 "esp32_01")
    as (H1 & _ & H3 & H4 & H5).
  - intros [? H]. vm_compute in H. discriminate.
  - unfold stray_subscriber. by split_and!.
Defined.

Lemma stray_subscriber_stays :
  7 ∈ subscribers (disconnect 7 stray_subscriber) "esp32_01".
Proof.
  apply elem_of_subscribers_disconnect. split.
  - apply elem_of_subscribers_subscribe. by left.
  - intros [_ Hin]. revert Hin. vm_compute. set_solver.
Qed.

(** C7, as stated for every registry state: it fails in the state where
    connection 7 was subscribed without being registered, since the
    disconnect finds no topic set to walk and 7 stays a subscriber. *)
Lemma unregister_effect_fails_on_stray :
  ¬ unregister_effect stray_subscriber 7.
Proof.
  intros (Hgone & _). apply (Hgone "esp32_01"), stray_subscriber_stays.
Qed.

(** C7. In every registry state in which every topic whose subscriber
    set holds [c] is in the topic set of [c] (as in every mutually
    consistent state), unregistering [c] removes it from every topic's
    subscriber set and from the connection index, leaves every other
    connection in the subscriber sets and in the connection index as it
    was, deletes every topic whose subscriber set is emptied by that,
    and leaves the topic index as it was when [c] had no subscription.
    In every other state [c] stays in a topic's subscriber set. *)
Theorem unregister_effect_tracked m (c : WebSocket) :
  tracked m c ↔ unregister_effect m c.
Proof.
  split.
  - intros Ht. unfold unregister_effect; cbv zeta. split_and!.
    + intros d. rewrite elem_of_subscribers_disconnect.
      intros [Hin Hnot]. apply Hnot. split; [done|]. by apply Ht.
    + rewrite registered_disconnect. by intros [? _].
    + intros ws d Hne. rewrite elem_of_subscribers_disconnect. naive_solver.
    + intros ws Hne. unfold disconnect; simpl. by rewrite lookup_delete_ne.
    + intros d s Hs Hin Hempty. rewrite lookup_subscribers_disconnect.
      rewrite decide_True.
      * rewrite Hs; simpl. unfold pruned. by rewrite decide_True.
      * apply Ht. unfold subscribers. by rewrite Hs.
    + intros Hnone. split; [|done].
      apply map_eq. intros d. rewrite lookup_subscribers_disconnect.
      rewrite decide_False; [done|]. rewrite Hnone. set_solver.
  - intros (Hgone & _) d Hin.
    destruct (decide (d ∈ subscriptions m c)) as [|Hnot]; [done|].
    exfalso. apply (Hgone d). apply elem_of_subscribers_disconnect. tauto.
Qed.

Lemma mutually_consistent_tracked m (c : WebSocket) :
  mutually_consistent m → tracked m c.
Proof. intros Hc d Hin. by apply Hc. Qed.

Lemma mixed_tracked : tracked mixed 1 ∧ ¬ mutually_consistent mixed.
Proof.
  split.
  - intros d Hin. unfold mixed in *.
    apply elem_of_subscribers_subscribe in Hin as [[Heq _]|Hin]; [lia|].
    apply elem_of_subscribers_subscribe in Hin as [[_ ->]|Hin].
    + apply (bool_decide_unpack _). vm_compute. exact I.
    + exfalso. revert Hin. vm_compute. set_solver.
  - intros Hc.
    assert (2 ∈ subscribers mixed "esp32_02") as Hin
      by (apply elem_of_subscribers_subscribe; by left).
    apply Hc in Hin. revert Hin. vm_compute. set_solver.
Qed.

Lemma example_run_consistent :
  mutually_consistent (run two_clients example_calls).
Proof.
  apply run_consistent; try apply two_clients_consistent.
  repeat split; eexists; vm_compute; reflexivity.
Qed.

Lemma unregister_effect_tracked_witness :
  unregister_effect (run two_clients example_calls) 2
  ∧ unregister_effect mixed 1.
Proof.
  split.
  - apply (unregister_effect_tracked (run two_clients example_calls) 2).
    apply mutually_consistent_tracked, example_run_consistent.
  - apply (unregister_effect_tracked mixed 1). apply mixed_tracked.
Defined.

(** The subscribers after a series of disconnects: those before, less
    the disconnected connections in the topics of their own topic
    sets. *)
Lemma elem_of_subscribers_foldl (l : list WebSocket) m ws d :
  ws ∈ subscribers (foldl (λ m ws, disconnect ws m) m l) d ↔
    ws ∈ subscribers m d ∧ ¬ (ws ∈ l ∧ d ∈ subscriptions m ws).
Proof.
  revert m. induction l as [|a l IH]; intros m; cbn [foldl].
  - rewrite elem_of_nil. tauto.
  - rewrite IH, elem_of_subscribers_disconnect, elem_of_subscriptions_disconnect.
    rewrite elem_of_cons. destruct (decide (ws = a)) as [->|Hne]; naive_solver.
Qed.

Lemma three_subscribers_consistent :
  mutually_consistent three_subscribers ∧ no_empty_topic three_subscribers.
Proof.
  unfold three_subscribers.
  assert (mutually_consistent (connect 3 two_clients)
          ∧ no_empty_topic (connect 3 two_clients)) as [Hc Hne].
  { apply connect_consistent; try apply two_clients_consistent.
    intros [t Ht]. vm_compute in Ht. discriminate. }
  apply (run_consistent (connect 3 two_clients)
           [Subscribe 1 "esp32_01"; Subscribe 2 "esp32_01"; Subscribe 3 "esp32_01"]);
    [done|done|].
  repeat split; eexists; vm_compute; reflexivity.
Qed.

(** *** Broadcast *)

Section BroadcastFacts.
Context {Msg : Type} (net : WebSocket → channel Msg).
Implicit Types (message : Msg) (st : fanout (Msg:=Msg)).

Lemma send_to_subscriber_eq d message ws st :
  send_to_subscriber net d message ws st =
    (Ret tt,
     Fanout (delivered st ++
               (if send_returns net d message ws
                then [(ws, Frame "reading" d message)] else []))
            (disconnected st ++
               (if send_raises net d message ws then [ws] else []))).
Proof.
  unfold send_to_subscriber, try_send, send_returns, send_raises.
  destruct st as [dl dc]; simpl.
  destruct (WebSocketState_eqb _ _); simpl.
  - destruct (send_json _ _) as [[]|e]; simpl; by rewrite app_nil_r.
  - by rewrite !app_nil_r.
Qed.

Lemma gather_send_to_subscriber d message (l : list WebSocket) st :
  gather (map (send_to_subscriber net d message) l) st =
    (Ret tt,
     Fanout (delivered st ++
               map (λ ws, (ws, Frame "reading" d message))
                   (filter (λ ws, send_returns net d message ws) l))
            (disconnected st ++
               filter (λ ws, send_raises net d message ws) l)).
Proof.
  revert st. induction l as [|ws l IH]; intros st; simpl.
  - destruct st; simpl. by rewrite !app_nil_r.
  - rewrite send_to_subscriber_eq, IH; simpl.
    rewrite !filter_cons.
    destruct (send_returns net d message ws), (send_raises net d message ws);
      simpl; rewrite <- ?app_assoc, ?app_nil_r; done.
Qed.

Lemma registered_foldl_disconnect (l : list WebSocket) m ws :
  registered (foldl (λ m ws, disconnect ws m) m l) ws ↔
    (ws ∉ l) ∧ registered m ws.
Proof.
  revert m. induction l as [|x l IH]; intros m; simpl.
  - set_solver.
  - rewrite IH, registered_disconnect, not_elem_of_cons. naive_solver.
Qed.

Lemma broadcast_to_device_eq d message m :
  broadcast_to_device net d message m =
    let failed := filter (λ ws, send_raises net d message ws)
                         (elements (subscribers m d)) in
    BroadcastResult (Ret tt)
      (foldl (λ m ws, disconnect ws m) m failed)
      (map (λ ws, (ws, Frame "reading" d message))
           (filter (λ ws, send_returns net d message ws)
                   (elements (subscribers m d))))
      failed.
Proof.
  unfold broadcast_to_device. case_decide as Hempty.
  - rewrite Hempty, elements_empty. done.
  - by rewrite gather_send_to_subscriber.
Qed.

(** C5. A broadcast returns without an exception; every subscriber of
    the topic whose own send returns is delivered the frame, whatever the
    sends to the other subscribers do; and every subscriber whose send
    raised is disconnected once the fan-out is over: the manager after
    the call is the one before with [disconnect] run on each of them,
    none of them is left in the connection index, and none of them is
    left in the subscriber set of any topic, as far as its topics were
    in its own topic set (which is so in a consistent index). *)
Theorem broadcast_isolates_failures d message m :
  let r := broadcast_to_device net d message m in
  let f := Frame "reading" d message in
  br_outcome r = Ret tt
  ∧ (∀ ws, ws ∈ subscribers m d →
       client_state (net ws) = CONNECTED →
       is_ret (send_json (net ws) f) = true →
       (ws, f) ∈ br_delivered r)
  ∧ (∀ ws, ws ∈ subscribers m d →
       client_state (net ws) = CONNECTED →
       is_ret (send_json (net ws) f) = false →
       ws ∈ br_disconnected r
       ∧ ¬ registered (br_manager r) ws
       ∧ (tracked m ws ↔ ∀ d', ws ∉ subscribers (br_manager r) d'))
  ∧ br_manager r = foldl (λ m ws, disconnect ws m) m (br_disconnected r).
Proof.
  rewrite broadcast_to_device_eq; cbv zeta; simpl. split_and!.
  - done.
  - intros ws Hin Hst Hok.
    apply (list_elem_of_fmap_2 (λ ws, (ws, Frame "reading" d message))).
    apply list_elem_of_filter. split; [|by apply elem_of_elements].
    unfold send_returns. by rewrite Hst, Hok.
  - intros ws Hin Hst Hko.
    assert (ws ∈ filter (λ ws, send_raises net d message ws)
                        (elements (subscribers m d))) as Hfailed.
    { apply list_elem_of_filter. split; [|by apply elem_of_elements].
      unfold send_raises. by rewrite Hst, Hko. }
    split_and!; [done| |].
    + rewrite registered_foldl_disconnect. tauto.
    + split.
      * intros Ht d' Hd'. apply elem_of_subscribers_foldl in Hd' as [Hd' Hnot].
        apply Hnot. split; [done|]. by apply Ht.
      * intros Hgone d' Hd'.
        destruct (decide (d' ∈ subscriptions m ws)) as [|Hnot]; [done|].
        exfalso. apply (Hgone d'). apply elem_of_subscribers_foldl. tauto.
  - done.
Qed.

End BroadcastFacts.

Lemma broadcast_isolates_failures_witness :
  let r := broadcast_to_device flaky_net "esp32_01" 42 three_subscribers in
  (1, Frame "reading" "esp32_01" 42) ∈ br_delivered r
  ∧ (3, Frame "reading" "esp32_01" 42) ∈ br_delivered r
  ∧ 2 ∈ br_disconnected r ∧ ¬ registered (br_manager r) 2
  ∧ ∀ d', 2 ∉ subscribers (br_manager r) d'.
Proof.
  destruct (broadcast_isolates_failures flaky_net "esp32_01" 42 three_subscribers)
    as (_ & Hok & Hko & _).
  cbv zeta. split_and!.
  - apply Hok; [|reflexivity|reflexivity].
    apply (bool_decide_unpack _). vm_compute. exact I.
  - apply Hok; [|reflexivity|reflexivity].
    apply (bool_decide_unpack _). vm_compute. exact I.
  - apply Hko; [|reflexivity|reflexivity].
    apply (bool_decide_unpack _). vm_compute. exact I.
  - apply Hko; [|reflexivity|reflexivity].
    apply (bool_decide_unpack _). vm_compute. exact I.
  - destruct (Hko 2) as (_ & _ & Hgone); [|reflexivity|reflexivity|].
    + apply (bool_decide_unpack _). vm_compute. exact I.
    + apply Hgone. apply mutually_consistent_tracked, three_subscribers_consistent.
Defined.

End ManagerFacts.

(* ===================================================================== *)
(** ** TimeRange *)
(* ===================================================================== *)

Section TimeRangeFacts.
Local Open Scope Z_scope.

Example mk_datetime_epoch : mk_datetime 1 1 1 0 0 0 = 0.
Proof. reflexivity. Qed.

(** 1970-01-01 is day 719163 of the proleptic Gregorian calendar. *)
Example mk_datetime_unix : mk_datetime 1970 1 1 0 0 0 = 719162 * us_per_day.
Proof. reflexivity. Qed.

Example mk_datetime_max :
  mk_datetime 9999 12 31 23 59 59 + 999999 = datetime_max.
Proof. reflexivity. Qed.

Example re_match_24h : TimeRange.re_match "24h" = Some ("24", "h"%char).
Proof. reflexivity. Qed.

Example re_match_bad : TimeRange.re_match "bad" = None.
Proof. reflexivity. Qed.

(** C9. [TimeRange.last("24h")] with [now] = 2024-01-15T12:00:00 is the
    range from 2024-01-14T12:00:00 to 2024-01-15T12:00:00, and
    [TimeRange.last("bad")] raises the [ValueError] of a malformed
    duration string (the InvalidTimeRange failure), whatever the time. *)
Theorem last_24h_and_bad :
  (∀ utcnow,
     TimeRange.last "24h" (Some (mk_datetime 2024 1 15 12 0 0)) utcnow =
       Ret (TimeRange.Make (mk_datetime 2024 1 14 12 0 0)
                           (mk_datetime 2024 1 15 12 0 0)))
  ∧ (∀ now utcnow,
       TimeRange.last "bad" now utcnow =
         Raise (ValueError "Invalid duration format")).
Proof. split; intros; reflexivity. Qed.

End TimeRangeFacts.

(* ===================================================================== *)
(** ** AggregationService *)
(* ===================================================================== *)

Section AggregationFacts.
Import AggregationService.
Local Open Scope Z_scope.

Lemma contains_app_r needle a b :
  contains needle b = true → contains needle (a ++ b) = true.
Proof.
  intros H. induction a as [|c a IH]; [done|].
  simpl. rewrite IH. apply orb_true_r.
Qed.

Lemma prefix_app needle b : String.prefix needle (needle ++ b) = true.
Proof.
  induction needle as [|c n IH]; simpl; [by destruct b|].
  destruct (ascii_dec c c); [done|congruence].
Qed.

(** A device identifier occurs in each of its keys. *)
Lemma contains_cache_key device_id range_str :
  contains device_id (cache_key device_id range_str) = true.
Proof.
  unfold cache_key. apply contains_app_r.
  destruct (device_id ++ ":" ++ range_str)%string eqn:E;
    cbn [contains]; rewrite <- E, prefix_app; done.
Qed.

Section WithStats.
Context {Stats : Type} (settings : Settings.t).
Implicit Types (w : world Stats).

(** [clear_cache] with a non-empty identifier deletes the keys in which
    the identifier occurs, and only those. *)
Lemma clear_cache_lookup c device_id w k :
  _cache (clear_cache (Some (String c device_id)) w).2 !! k =
    if contains (String c device_id) k then None else _cache w !! k.
Proof.
  unfold clear_cache, modify, set_cache; cbn [snd _cache].
  destruct (contains (String c device_id) k) eqn:Hk.
  - destruct (_cache w !! k) as [v|] eqn:Hv.
    + apply lookup_foldr_delete. apply list_elem_of_In, filter_In. split; [|done].
      apply list_elem_of_In.
      apply (list_elem_of_fmap_2 fst _ (k, v)). by apply elem_of_map_to_list.
    + destruct (foldr delete (_cache w) _ !! k) eqn:E; [|done].
      apply lookup_foldr_delete_Some in E as [_ E]. congruence.
  - apply lookup_foldr_delete_not_elem_of.
    intros [_ Hc]%list_elem_of_In%filter_In. congruence.
Qed.

Lemma clear_cache_removes_device c device_id range_str w :
  _cache (clear_cache (Some (String c device_id)) w).2
    !! cache_key (String c device_id) range_str = None.
Proof. by rewrite clear_cache_lookup, contains_cache_key. Qed.

Lemma clear_cache_keeps_unrelated c device_id w k :
  contains (String c device_id) k = false →
  _cache (clear_cache (Some (String c device_id)) w).2 !! k = _cache w !! k.
Proof. intros H. by rewrite clear_cache_lookup, H. Qed.

Lemma clear_cache_all w : _cache (clear_cache None w).2 = ∅.
Proof. done. Qed.

(** *** Lookup and recomputation *)

Lemma get_device_stats_hit device_id range_str w tr cached_at value :
  TimeRange.last range_str None (clock w (ticks w)) = Ret tr →
  _cache w !! cache_key device_id range_str = Some (cached_at, value) →
  clock w (S (ticks w)) - cached_at
    ≤ Settings.aggregation_cache_ttl settings * us_per_second →
  get_device_stats settings device_id range_str w =
    (Ret value,
     World (_cache w) (clock w) (S (S (ticks w))) (reading_repo_get_stats w)
           (get_stats_calls w)).
Proof.
  intros Hlast Hentry Hage.
  unfold get_device_stats, _get_cached, bind, utcnow, lift, gets, ret; simpl.
  rewrite Hlast, Hentry. unfold age_exceeds.
  rewrite (proj2 (Z.ltb_ge _ _)) by exact Hage. done.
Qed.

Lemma get_device_stats_miss device_id range_str w tr :
  TimeRange.last range_str None (clock w (ticks w)) = Ret tr →
  misses settings (cache_key device_id range_str) w →
  let key := cache_key device_id range_str in
  let looked := if _cache w !! key is Some _ then S (S (ticks w)) else S (ticks w) in
  get_device_stats settings device_id range_str w =
    match reading_repo_get_stats w device_id tr with
    | Ret stats =>
        (Ret stats,
         World (<[key := (clock w looked, stats)]> (_cache w)) (clock w)
               (S looked) (reading_repo_get_stats w)
               (get_stats_calls w ++ [(device_id, tr)]))
    | Raise e =>
        (Raise e,
         World (delete key (_cache w)) (clock w) looked
               (reading_repo_get_stats w)
               (get_stats_calls w ++ [(device_id, tr)]))
    end.
Proof.
  intros Hlast Hmiss. cbv zeta. unfold misses in Hmiss.
  unfold get_device_stats, _get_cached, _set_cached, get_stats, bind, utcnow,
    lift, gets, ret, modify, set_cache; simpl.
  rewrite Hlast.
  destruct (_cache w !! cache_key device_id range_str) as [[cached_at v]|] eqn:He.
  - simpl. rewrite Hmiss; simpl.
    destruct (reading_repo_get_stats w device_id tr); simpl; [|done].
    by rewrite insert_delete_eq.
  - simpl. destruct (reading_repo_get_stats w device_id tr); simpl; [done|].
    by rewrite delete_id.
Qed.

(** C6. For a TTL of at least 0 and less than 2^32 seconds, where the
    comparison the code makes on the binary64 [total_seconds()] is the
    comparison of the microseconds: when the key of a call has an entry
    whose age at the lookup is at most the TTL, [get_device_stats]
    returns the cached value, makes no call to [get_stats] and leaves
    the cache as it is; when the age exceeds the TTL, [get_stats] is
    called once and, when it returns, its result is returned and stored
    under the key with the time read when it is stored. Ages are in
    microseconds. *)
Theorem get_device_stats_honours_ttl device_id range_str w tr cached_at value :
  (0 ≤ Settings.aggregation_cache_ttl settings < 2 ^ 32)%Z →
  TimeRange.last range_str None (clock w (ticks w)) = Ret tr →
  _cache w !! cache_key device_id range_str = Some (cached_at, value) →
  let ttl := Settings.aggregation_cache_ttl settings in
  let age := clock w (S (ticks w)) - cached_at in
  let r := get_device_stats settings device_id range_str w in
  (age ≤ ttl * us_per_second →
     r.1 = Ret value
     ∧ get_stats_calls r.2 = get_stats_calls w
     ∧ _cache r.2 = _cache w)
  ∧ (ttl * us_per_second < age →
     ∀ stats, reading_repo_get_stats w device_id tr = Ret stats →
       r.1 = Ret stats
       ∧ get_stats_calls r.2 = (get_stats_calls w ++ [(device_id, tr)])%list
       ∧ _cache r.2 =
           <[cache_key device_id range_str := (clock w (S (S (ticks w))), stats)]>
             (_cache w)).
Proof.
  intros _ Hlast Hentry. cbv zeta. split.
  - intros Hage. by rewrite (get_device_stats_hit _ _ _ _ _ _ Hlast Hentry Hage).
  - intros Hage stats Hstats.
    rewrite (get_device_stats_miss _ _ _ _ Hlast).
    + cbv zeta. by rewrite Hstats, Hentry.
    + unfold misses, age_exceeds. rewrite Hentry. by apply Z.ltb_lt.
Qed.

(** C8. When [get_stats] raises during a miss, the exception reaches the
    caller and no entry is stored: the cache afterwards is the one before
    without the key of the call, whose expired entry, if there was one,
    the lookup has deleted; it is the one before when the key had no
    entry. *)
Theorem failed_compute_is_not_cached device_id range_str w tr e :
  TimeRange.last range_str None (clock w (ticks w)) = Ret tr →
  misses settings (cache_key device_id range_str) w →
  reading_repo_get_stats w device_id tr = Raise e →
  let r := get_device_stats settings device_id range_str w in
  r.1 = Raise e
  ∧ _cache r.2 = delete (cache_key device_id range_str) (_cache w)
  ∧ _cache r.2 !! cache_key device_id range_str = None
  ∧ (_cache w !! cache_key device_id range_str = None → _cache r.2 = _cache w).
Proof.
  intros Hlast Hmiss Hraise. cbv zeta.
  rewrite (get_device_stats_miss _ _ _ _ Hlast Hmiss). cbv zeta.
  rewrite Hraise; simpl. split_and!; [done|done|apply lookup_delete_eq|].
  intros Hnone. by apply delete_id.
Qed.

End WithStats.

(** C2, at the input where the claim and the code part: the cache holds
    one entry for device esp32_1 and one for device esp32_10; clearing
    the cache for esp32_1 also deletes the entry of esp32_10, whose key
    contains the text esp32_1. *)
Theorem clear_cache_removes_other_device :
  let w := world_at two_device_cache 0 (Ret 0%nat) in
  let w' := (clear_cache (Some "esp32_1"%string) w).2 in
  _cache w !! cache_key "esp32_10" "24h" = Some (mk_datetime 2024 1 15 12 0 0, 10%nat)
  ∧ _cache w' !! cache_key "esp32_10" "24h" = None
  ∧ _cache w' = ∅.
Proof. cbv zeta. split_and!; vm_compute; reflexivity. Qed.

Lemma get_device_stats_honours_ttl_witness :
  (get_device_stats example_settings "esp32_1" "24h"
     (world_at two_device_cache 60 (Ret 7%nat))).1 = Ret 1%nat
  ∧ get_stats_calls (get_device_stats example_settings "esp32_1" "24h"
       (world_at two_device_cache 60 (Ret 7%nat))).2 = []
  ∧ (get_device_stats example_settings "esp32_1" "24h"
       (world_at two_device_cache 61 (Ret 7%nat))).1 = Ret 7%nat
  ∧ length (get_stats_calls (get_device_stats example_settings "esp32_1" "24h"
       (world_at two_device_cache 61 (Ret 7%nat))).2) = 1%nat.
Proof.
  destruct (get_device_stats_honours_ttl example_settings "esp32_1" "24h"
              (world_at two_device_cache 60 (Ret 7%nat))
              (TimeRange.Make (mk_datetime 2024 1 14 12 1 0) (mk_datetime 2024 1 15 12 1 0))
              (mk_datetime 2024 1 15 12 0 0) 1%nat)
    as [Hhit _]; [cbn; lia|reflexivity|reflexivity|].
  destruct (get_device_stats_honours_ttl example_settings "esp32_1" "24h"
              (world_at two_device_cache 61 (Ret 7%nat))
              (TimeRange.Make (mk_datetime 2024 1 14 12 1 1) (mk_datetime 2024 1 15 12 1 1))
              (mk_datetime 2024 1 15 12 0 0) 1%nat)
    as [_ Hstale]; [cbn; lia|reflexivity|reflexivity|].
  cbv zeta in Hhit, Hstale.
  destruct Hhit as (H1 & H2 & _); [vm_compute; discriminate|].
  destruct (Hstale ltac:(vm_compute; reflexivity) 7%nat eq_refl) as (H3 & H4 & _).
  split_and!; [exact H1 | exact H2 | exact H3 | by rewrite H4].
Defined.

(** C8, as stated: it fails when the miss is an expired entry. With a
    TTL of 60 seconds and an entry aged 61 seconds, the lookup deletes
    the entry before [get_stats] raises, so the cache is not the one
    before the call. *)
Lemma failed_compute_changes_cache_on_expiry :
  ¬ failed_compute_keeps_cache example_settings "esp32_1" "24h"
      (world_at two_device_cache 61 (Raise (CollaboratorError "connection lost"))).
Proof.
  intros H.
  destruct (H (TimeRange.Make (mk_datetime 2024 1 14 12 1 1) (mk_datetime 2024 1 15 12 1 1))
              (CollaboratorError "connection lost")) as [_ Hcache];
    [reflexivity | vm_compute; reflexivity | reflexivity |].
  assert (_cache (world_at two_device_cache 61
                    (Raise (CollaboratorError "connection lost")))
            !! cache_key "esp32_1" "24h" = None) as Hgone.
  { rewrite <- Hcache. vm_compute. reflexivity. }
  vm_compute in Hgone. discriminate.
Qed.

Lemma failed_compute_is_not_cached_witness :
  (get_device_stats example_settings "esp32_2" "24h"
     (world_at two_device_cache 5 (Raise (CollaboratorError "connection lost")))).1
    = Raise (CollaboratorError "connection lost")
  ∧ _cache (get_device_stats example_settings "esp32_2" "24h"
       (world_at two_device_cache 5 (Raise (CollaboratorError "connection lost")))).2
    = two_device_cache.
Proof.
  destruct (failed_compute_is_not_cached example_settings "esp32_2" "24h"
              (world_at two_device_cache 5 (Raise (CollaboratorError "connection lost")))
              (TimeRange.Make (mk_datetime 2024 1 14 12 0 5) (mk_datetime 2024 1 15 12 0 5))
              (CollaboratorError "connection lost"))
    as (H1 & _ & _ & H4); [reflexivity | vm_compute; exact I | reflexivity |].
  split; [exact H1 | apply H4; vm_compute; reflexivity].
Defined.

End AggregationFacts.

(* ===================================================================== *)
(** ** IngestionService *)
(* ===================================================================== *)

Section IngestionFacts.
Import IngestionService.
Local Open Scope list_scope.

Example device_api_keys_set_example :
  Settings.device_api_keys_set example_settings = {[ "key-a"; "key-b" ]}.
Proof. vm_compute. reflexivity. Qed.

Example temperature_90_refused :
  SensorMetrics.from_dict hot_metrics =
    Raise (ValueError "Temperature must be between -40.0 and 85.0").
Proof. vm_compute. reflexivity. Qed.

Example temperature_nan_refused :
  SensorMetrics.from_dict (<["temperature" := nan]> ∅) =
    Raise (ValueError "Temperature must be between -40.0 and 85.0").
Proof. vm_compute. reflexivity. Qed.

Lemma from_dict_invalid metrics_data :
  invalid_metrics metrics_data →
  (∃ msg, SensorMetrics.from_dict metrics_data = Raise (ValueError msg))
  ∨ (∃ m, SensorMetrics.from_dict metrics_data = Ret m
          ∧ SensorMetrics.has_any_metric m = false).
Proof.
  unfold SensorMetrics.from_dict, SensorMetrics.make, SensorMetrics.check.
  intros [(v & -> & Hv)|[(v & Hh & Hv)|[(v & Hh & Hv)|(-> & -> & ->)]]].
  - rewrite Hv. eauto.
  - rewrite Hh, Hv. left. repeat case_match; simplify_eq; eauto.
  - rewrite Hh, Hv. left. repeat case_match; simplify_eq; eauto.
  - right. eauto.
Qed.

Lemma classic_valid_key settings api_key :
  valid_key settings api_key ∨ ¬ valid_key settings api_key.
Proof.
  destruct api_key as [[|c k]|].
  - right. intros (k & [= <-] & Hne & _). done.
  - destruct (decide (String c k ∈ Settings.device_api_keys_set settings)).
    + left. by exists (String c k).
    + right. intros (k' & [= <-] & _ & Hin). done.
  - right. intros (k & [=] & _).
Qed.

Lemma from_dict_raises_ValueError metrics_data e :
  SensorMetrics.from_dict metrics_data = Raise e → ∃ msg, e = ValueError msg.
Proof.
  unfold SensorMetrics.from_dict, SensorMetrics.make, SensorMetrics.check.
  repeat match goal with
         | |- context [match ?x !! ?k with _ => _ end] => destruct (x !! k)
         | |- context [if SensorMetrics.between ?a ?b ?c then _ else _] =>
             destruct (SensorMetrics.between a b c)
         end; intros [= <-]; eauto.
Qed.

Section WithEnvironment.
Context (settings : Settings.t) (net : WebSocket → channel Reading.dict)
        (now : datetime) (uuid4 : UUID).
Implicit Types (w : world) (device_id : string) (api_key : option string).

Lemma ingest_bad_key device_id metrics_data api_key w :
  ¬ valid_key settings api_key →
  ingest settings net now uuid4 device_id metrics_data api_key w =
    (Raise AuthenticationError, w).
Proof.
  intros Hbad. unfold ingest.
  destruct api_key as [[|c k]|]; try done.
  destruct (bool_decide _) eqn:Hk; [|done].
  apply bool_decide_eq_true in Hk. exfalso. apply Hbad.
  exists (String c k). done.
Qed.

(** The pipeline after the API key was accepted. *)
Lemma ingest_good_key device_id metrics_data api_key w :
  valid_key settings api_key →
  ingest settings net now uuid4 device_id metrics_data api_key w =
    match devices w !! device_id with
    | None => (Raise (DeviceNotFoundError device_id), w)
    | Some device =>
        if negb (Device.is_active device)
        then (Raise (DeviceInactiveError device_id), w)
        else
          match SensorMetrics.from_dict metrics_data with
          | Raise (ValueError msg) => (Raise (InvalidPayloadError msg), w)
          | Raise e => (Raise e, w)
          | Ret metrics =>
              if negb (SensorMetrics.has_any_metric metrics)
              then (Raise (InvalidPayloadError "At least one metric value is required"), w)
              else
                match Reading.create device_id metrics (Some now) uuid4 now with
                | Raise e => (Raise e, w)
                | Ret reading =>
                    (reading_repo_create reading ;;
                     device_repo_update_last_seen device_id now ;;
                     ws_broadcast_to_device net device_id (Reading.to_dict reading) ;;
                     ret reading) w
                end
          end
    end.
Proof.
  intros (k & -> & Hne & Hin). unfold ingest.
  destruct k as [|c k]; [done|].
  rewrite bool_decide_eq_true_2 by done. cbn [negb].
  unfold bind at 1, device_repo_get_by_id, gets.
  destruct (devices w !! device_id) as [device|]; [|done].
  destruct (Device.is_active device); cbn [negb]; [|done].
  unfold bind at 1, parse_metrics.
  destruct (SensorMetrics.from_dict metrics_data) as [metrics|[]]; try done.
  unfold lift at 1.
  destruct (SensorMetrics.has_any_metric metrics); cbn [negb]; [|done].
  unfold bind at 1, lift.
  destruct (Reading.create _ _ _ _ _); done.
Qed.

(** The three effects of the end of the pipeline. *)
Lemma persist_and_broadcast device_id reading w :
  (reading_repo_create reading ;;
   device_repo_update_last_seen device_id now ;;
   ws_broadcast_to_device net device_id (Reading.to_dict reading) ;;
   ret reading) w =
    let devices' := alter (λ d, Device.with_last_seen d now) device_id (devices w) in
    let written := [ReadingCreate reading; UpdateLastSeen device_id now] in
    (Ret reading,
     match _ws_manager w with
     | None =>
         World devices' (readings w ++ [reading]) None (sent w)
               (effects w ++ written)
     | Some m =>
         let r := WebSocketManager.broadcast_to_device
                    net device_id (Reading.to_dict reading) m in
         World devices' (readings w ++ [reading])
               (Some (WebSocketManager.br_manager r))
               (sent w ++ WebSocketManager.br_delivered r)
               (effects w ++ written
                  ++ [BroadcastToDevice device_id (Reading.to_dict reading)])
     end).
Proof.
  unfold bind, reading_repo_create, device_repo_update_last_seen,
    ws_broadcast_to_device, ret; simpl.
  destruct (_ws_manager w) as [m|] eqn:Hm; simpl.
  - rewrite (broadcast_to_device_eq net); simpl.
    by rewrite <- !app_assoc.
  - destruct w; simpl in *; subst. by rewrite <- !app_assoc.
Qed.

(** Over repositories that answer, a call that raises has changed
    nothing. *)
Lemma ingest_raises_unchanged device_id metrics_data api_key w e :
  (ingest settings net now uuid4 device_id metrics_data api_key w).1 = Raise e →
  (ingest settings net now uuid4 device_id metrics_data api_key w).2 = w.
Proof.
  destruct (classic_valid_key settings api_key) as [Hk|Hk].
  - rewrite (ingest_good_key _ _ _ _ Hk).
    repeat match goal with
           | |- context [match ?x with _ => _ end] =>
               lazymatch x with
               | bind _ _ _ => fail
               | _ => destruct x eqn:?
               end
           end; try done.
    all: rewrite persist_and_broadcast; done.
  - by rewrite (ingest_bad_key _ _ _ _ Hk).
Qed.

(** What a call that returns has done: one reading written, one
    last-seen update, and, when a manager was given, one broadcast, made
    on the topic of the device. *)
Lemma ingest_success_effects device_id metrics_data api_key w reading :
  (ingest settings net now uuid4 device_id metrics_data api_key w).1 = Ret reading →
  let w' := (ingest settings net now uuid4 device_id metrics_data api_key w).2 in
  readings w' = readings w ++ [reading]
  ∧ Reading.timestamp reading = now
  ∧ effects w' =
      effects w ++ [ReadingCreate reading; UpdateLastSeen device_id now]
        ++ match _ws_manager w with
           | Some _ => [BroadcastToDevice device_id (Reading.to_dict reading)]
           | None => []
           end
  ∧ ∀ ws f, (ws, f) ∈ sent w' → (ws, f) ∈ sent w ∨ frame_device_id f = device_id.
Proof.
  destruct (classic_valid_key settings api_key) as [Hk|Hk];
    [|by rewrite (ingest_bad_key _ _ _ _ Hk)].
  rewrite (ingest_good_key _ _ _ _ Hk).
  destruct (devices w !! device_id) as [device|]; [|done].
  destruct (Device.is_active device); cbn [negb]; [|done].
  destruct (SensorMetrics.from_dict metrics_data) as [metrics|[]]; try done.
  destruct (SensorMetrics.has_any_metric metrics); cbn [negb]; [|done].
  destruct (Reading.create _ _ _ _ _) as [r|] eqn:Hcreate; [|done].
  rewrite persist_and_broadcast. cbv zeta. cbn [fst snd]. intros [= ->].
  assert (Reading.timestamp reading = now) as Hts.
  { unfold Reading.create in Hcreate. case_match; [done|]. by simplify_eq. }
  destruct (_ws_manager w) as [m|]; simpl.
  - split_and!; [done|done|done|].
    intros ws f [Hin|Hin]%elem_of_app; [by left|right].
    rewrite (broadcast_to_device_eq net) in Hin; simpl in Hin.
    apply list_elem_of_fmap in Hin as (ws' & [= -> ->] & _). done.
  - split_and!; [done|done|done|]. by left.
Qed.

(** C4. A call that fails a validation raises the error of that
    validation and leaves the world as it was: no reading written, no
    last-seen update, no broadcast. The validations are made in the
    order key, device known, device active, metrics. *)
Theorem ingest_validation_failure device_id metrics_data api_key w :
  let r := ingest settings net now uuid4 device_id metrics_data api_key w in
  (¬ valid_key settings api_key → r = (Raise AuthenticationError, w))
  ∧ (valid_key settings api_key →
       (devices w !! device_id = None →
          r = (Raise (DeviceNotFoundError device_id), w))
       ∧ (∀ device, devices w !! device_id = Some device →
            (Device.is_active device = false →
               r = (Raise (DeviceInactiveError device_id), w))
            ∧ (Device.is_active device = true →
               invalid_metrics metrics_data →
               ∃ msg, r = (Raise (InvalidPayloadError msg), w)))).
Proof.
  cbv zeta. split; [apply ingest_bad_key|].
  intros Hk. rewrite (ingest_good_key _ _ _ _ Hk). split.
  - by intros ->.
  - intros device ->. split; intros ->; cbn [negb]; [done|].
    intros [(msg & ->)|(m & -> & ->)]%from_dict_invalid; cbn [negb]; eauto.
Qed.

End WithEnvironment.
Lemma ingest_validation_failure_witness :
  ingest example_settings healthy_net example_now 77
         "esp32_01" hot_metrics (Some "key-a") example_world =
    (Raise (InvalidPayloadError "Temperature must be between -40.0 and 85.0"),
     example_world)
  ∧ ingest example_settings healthy_net example_now 77
           "esp32_02" example_metrics (Some "key-a") example_world =
      (Raise (DeviceInactiveError "esp32_02"), example_world)
  ∧ ingest example_settings healthy_net example_now 77
           "esp32_03" example_metrics (Some "key-a") example_world =
      (Raise (DeviceNotFoundError "esp32_03"), example_world)
  ∧ ingest example_settings healthy_net example_now 77
           "esp32_01" example_metrics (Some "key-c") example_world =
      (Raise AuthenticationError, example_world).
Proof.
  assert (valid_key example_settings (Some "key-a")) as Hkey.
  { exists "key-a". split_and!; [done|done|].
    apply (bool_decide_unpack _). vm_compute. exact I. }
  split_and!.
  - destruct (ingest_validation_failure example_settings healthy_net example_now 77
                "esp32_01" hot_metrics (Some "key-a") example_world) as [_ H].
    destruct (H Hkey) as [_ H']. destruct (H' esp32_01 eq_refl) as [_ H''].
    destruct H'' as [msg Hmsg]; [reflexivity| |].
    + left. exists 90%float. split; reflexivity.
    + rewrite Hmsg. f_equal. vm_compute in Hmsg. congruence.
  - destruct (ingest_validation_failure example_settings healthy_net example_now 77
                "esp32_02" example_metrics (Some "key-a") example_world) as [_ H].
    destruct (H Hkey) as [_ H']. destruct (H' retired eq_refl) as [H'' _].
    by apply H''.
  - destruct (ingest_validation_failure example_settings healthy_net example_now 77
                "esp32_03" example_metrics (Some "key-a") example_world) as [_ H].
    destruct (H Hkey) as [H' _]. by apply H'.
  - destruct (ingest_validation_failure example_settings healthy_net example_now 77
                "esp32_01" example_metrics (Some "key-c") example_world) as [H _].
    apply H. intros (k & [= <-] & _ & Hin).
    apply (bool_decide_pack _) in Hin. vm_compute in Hin. exact Hin.
Defined.

(** C1, at the input where the claim and the code part: device esp32_01
    is active, connection 1 is subscribed to its topic and connection 2
    to the wildcard topic, every socket accepts frames. The call returns
    the reading after one write, one last-seen update and one broadcast,
    made on the topic esp32_01; no broadcast is made on the wildcard
    topic and connection 2 is sent nothing. *)
Theorem ingest_skips_wildcard_topic :
  let r := ingest example_settings healthy_net example_now 77
                  "esp32_01" example_metrics (Some "key-a") example_world in
  r.1 = Ret example_reading
  ∧ readings r.2 = [example_reading]
  ∧ effects r.2 =
      [ReadingCreate example_reading;
       UpdateLastSeen "esp32_01" example_now;
       BroadcastToDevice "esp32_01" (Reading.to_dict example_reading)]
  ∧ sent r.2 = [(1, Frame "reading" "esp32_01" (Reading.to_dict example_reading))]
  ∧ WebSocketManager.subscribers dashboard_manager wildcard = {[ 2 ]}.
Proof. cbv zeta. split_and!; vm_compute; reflexivity. Qed.

End IngestionFacts.

(* ===================================================================== *)
(** ** WebSocketManager: further properties *)
(* ===================================================================== *)

Section ManagerMore.
Import WebSocketManager ManagerTrace.
Local Open Scope list_scope.

Implicit Types (m : manager) (ws : WebSocket) (d : string).

Lemma manager_eq m1 m2 :
  _device_subscribers m1 = _device_subscribers m2 →
  _connection_subscriptions m1 = _connection_subscriptions m2 →
  m1 = m2.
Proof. destruct m1, m2; simpl; by intros -> ->. Qed.

Lemma lookup_subscribers_subscribe ws d m d' :
  _device_subscribers (subscribe ws d m) !! d' =
    if decide (d = d') then Some (subscribers m d ∪ {[ws]})
    else _device_subscribers m !! d'.
Proof.
  unfold subscribe, subscribers; simpl.
  destruct (decide (d = d')) as [<-|Hne].
  - rewrite lookup_alter_eq.
    destruct (_device_subscribers m !! d) as [s|] eqn:Hs; simpl.
    + by rewrite Hs.
    + by rewrite lookup_insert_eq.
  - rewrite lookup_alter_ne by done.
    destruct (_device_subscribers m !! d) as [s|] eqn:Hs; simpl; [done|].
    by rewrite lookup_insert_ne.
Qed.

Lemma lookup_connections_subscribe ws d m ws' :
  _connection_subscriptions (subscribe ws d m) !! ws' =
    if decide (ws = ws')
    then (λ t, t ∪ {[d]}) <$> (_connection_subscriptions m !! ws)
    else _connection_subscriptions m !! ws'.
Proof.
  unfold subscribe; simpl.
  destruct (_connection_subscriptions m !! ws) as [t|] eqn:Ht.
  - destruct (decide (ws = ws')) as [<-|Hne].
    + by rewrite lookup_insert_eq.
    + by rewrite lookup_insert_ne.
  - destruct (decide (ws = ws')) as [<-|Hne]; [by rewrite Ht|done].
Qed.

Lemma lookup_subscribers_unsubscribe ws d m d' :
  _device_subscribers (unsubscribe ws d m) !! d' =
    if decide (d = d') then _device_subscribers m !! d ≫= pruned ws
    else _device_subscribers m !! d'.
Proof. unfold unsubscribe; simpl. apply lookup_discard_subscriber. Qed.

Lemma lookup_connections_unsubscribe ws d m ws' :
  _connection_subscriptions (unsubscribe ws d m) !! ws' =
    if decide (ws = ws')
    then (λ t, t ∖ {[d]}) <$> (_connection_subscriptions m !! ws)
    else _connection_subscriptions m !! ws'.
Proof.
  unfold unsubscribe; simpl.
  destruct (_connection_subscriptions m !! ws) as [t|] eqn:Ht.
  - destruct (decide (ws = ws')) as [<-|Hne].
    + by rewrite lookup_insert_eq.
    + by rewrite lookup_insert_ne.
  - destruct (decide (ws = ws')) as [<-|Hne]; [by rewrite Ht|done].
Qed.

Lemma subscribe_twice ws d m :
  subscribe ws d (subscribe ws d m) = subscribe ws d m.
Proof.
  apply manager_eq; apply map_eq.
  - intros d'. rewrite !lookup_subscribers_subscribe.
    case_decide as Hd; [|done]. subst d'. f_equal.
    unfold subscribers at 1. rewrite lookup_subscribers_subscribe.
    rewrite decide_True by done. simpl. set_solver.
  - intros ws'. rewrite !lookup_connections_subscribe.
    case_decide as Hw; [|done]. subst ws'.
    rewrite decide_True by done.
    destruct (_connection_subscriptions m !! ws) as [t|]; simpl; [|done].
    f_equal. set_solver.
Qed.

Lemma unsubscribe_twice ws d m :
  unsubscribe ws d (unsubscribe ws d m) = unsubscribe ws d m.
Proof.
  apply manager_eq; apply map_eq.
  - intros d'. rewrite !lookup_subscribers_unsubscribe.
    case_decide as Hd; [|done]. subst d'.
    rewrite decide_True by done.
    destruct (_device_subscribers m !! d) as [s|]; simpl; [|done].
    unfold pruned. case_decide as He; simpl; [done|].
    replace (s ∖ {[ws]} ∖ {[ws]}) with (s ∖ {[ws]}) by set_solver.
    by rewrite decide_False.
  - intros ws'. rewrite !lookup_connections_unsubscribe.
    case_decide as Hw; [|done]. subst ws'.
    rewrite decide_True by done.
    destruct (_connection_subscriptions m !! ws) as [t|]; simpl; [|done].
    f_equal. set_solver.
Qed.

(** Subscribing twice is subscribing once, and unsubscribing twice is
    unsubscribing once, in every state of the manager. *)
Theorem subscription_calls_idempotent ws d m :
  subscribe ws d (subscribe ws d m) = subscribe ws d m
  ∧ unsubscribe ws d (unsubscribe ws d m) = unsubscribe ws d m.
Proof. split; [apply subscribe_twice | apply unsubscribe_twice]. Qed.

(** A subscription that is taken and given back leaves the manager as it
    was, when the connection was not a subscriber of the topic and no
    topic is kept with an empty set. *)
Theorem subscribe_unsubscribe_restores ws d m :
  no_empty_topic m →
  ws ∉ subscribers m d →
  d ∉ subscriptions m ws →
  unsubscribe ws d (subscribe ws d m) = m.
Proof.
  intros Hne Hws Hd. apply manager_eq; apply map_eq.
  - intros d'. rewrite lookup_subscribers_unsubscribe.
    rewrite !lookup_subscribers_subscribe.
    case_decide as Hdd; [|done]. subst d'.
    rewrite decide_True by done. simpl.
    unfold pruned, subscribers in *.
    destruct (_device_subscribers m !! d) as [s|] eqn:Hs; simpl in *.
    + replace ((s ∪ {[ws]}) ∖ {[ws]}) with s by set_solver.
      rewrite decide_False; [done|]. intros ->. by apply (Hne d).
    + rewrite decide_True; [done|]. set_solver.
  - intros ws'. rewrite lookup_connections_unsubscribe.
    rewrite !lookup_connections_subscribe.
    case_decide as Hw; [|done]. subst ws'.
    rewrite decide_True by done. unfold subscriptions in Hd.
    destruct (_connection_subscriptions m !! ws) as [t|]; simpl in *; [|done].
    f_equal. set_solver.
Qed.

Lemma subscribe_unsubscribe_restores_witness :
  unsubscribe 1 "esp32_09" (subscribe 1 "esp32_09" two_clients) = two_clients.
Proof.
  apply (subscribe_unsubscribe_restores 1 "esp32_09" two_clients).
  - apply two_clients_consistent.
  - vm_compute. set_solver.
  - vm_compute. set_solver.
Defined.

(** *** Disconnect *)

Lemma disconnect_absent ws m :
  _connection_subscriptions m !! ws = None → disconnect ws m = m.
Proof.
  intros Hnone. apply manager_eq.
  - unfold disconnect, subscriptions; simpl. rewrite Hnone; simpl.
    by rewrite elements_empty.
  - unfold disconnect; simpl. by apply delete_id.
Qed.

(** Disconnecting a connection that is not registered changes nothing;
    so a second disconnect of a connection, as the routes make after a
    failed broadcast has disconnected it, changes nothing more. *)
Theorem disconnect_again_changes_nothing ws m :
  (¬ registered m ws → disconnect ws m = m)
  ∧ disconnect ws (disconnect ws m) = disconnect ws m.
Proof.
  split.
  - intros Hunreg. apply disconnect_absent, eq_None_not_Some. exact Hunreg.
  - apply disconnect_absent. unfold disconnect; simpl. apply lookup_delete_eq.
Qed.

Lemma disconnect_again_changes_nothing_witness :
  disconnect 9 (run two_clients example_calls) = run two_clients example_calls.
Proof.
  destruct (disconnect_again_changes_nothing 9 (run two_clients example_calls))
    as [H _].
  apply H. intros [t Ht]. vm_compute in Ht. discriminate.
Defined.

(** Disconnecting [c] leaves every other connection where it was: its
    membership in each topic, its own topic set and its registration. *)
Theorem disconnect_others_untouched (c : WebSocket) ws m :
  ws ≠ c →
  (∀ d, ws ∈ subscribers (disconnect c m) d ↔ ws ∈ subscribers m d)
  ∧ subscriptions (disconnect c m) ws = subscriptions m ws
  ∧ (registered (disconnect c m) ws ↔ registered m ws).
Proof.
  intros Hne. split_and!.
  - intros d. rewrite elem_of_subscribers_disconnect. naive_solver.
  - unfold subscriptions, disconnect; simpl. by rewrite lookup_delete_ne.
  - rewrite registered_disconnect. naive_solver.
Qed.

Lemma disconnect_others_untouched_witness :
  (∀ d, 1 ∈ subscribers (disconnect 2 three_subscribers) d
        ↔ 1 ∈ subscribers three_subscribers d)
  ∧ subscriptions (disconnect 2 three_subscribers) 1 = subscriptions three_subscribers 1
  ∧ (registered (disconnect 2 three_subscribers) 1 ↔ registered three_subscribers 1).
Proof. apply (disconnect_others_untouched 2 1 three_subscribers). lia. Defined.

(** *** Connect *)

(** [connect] overwrites the topic set of a connection. Connecting a
    connection that is a subscriber of some topic leaves it in that
    topic's set with an empty topic set of its own: the index is then
    inconsistent, and a disconnect does not take it out of the topic. *)
Theorem connect_again_forgets_subscriptions ws d m :
  ws ∈ subscribers m d →
  ws ∈ subscribers (connect ws m) d
  ∧ subscriptions (connect ws m) ws = ∅
  ∧ ¬ mutually_consistent (connect ws m)
  ∧ ws ∈ subscribers (disconnect ws (connect ws m)) d.
Proof.
  intros Hin.
  assert (subscriptions (connect ws m) ws = ∅) as Hsubs.
  { unfold subscriptions, connect; simpl. by rewrite lookup_insert_eq. }
  split_and!.
  - exact Hin.
  - exact Hsubs.
  - intros Hc. assert (d ∈ subscriptions (connect ws m) ws) as Hd by (by apply Hc).
    rewrite Hsubs in Hd. set_solver.
  - apply elem_of_subscribers_disconnect. split; [exact Hin|].
    rewrite Hsubs. set_solver.
Qed.

Lemma connect_again_forgets_subscriptions_witness :
  ¬ mutually_consistent (connect 1 three_subscribers)
  ∧ 1 ∈ subscribers (disconnect 1 (connect 1 three_subscribers)) "esp32_01".
Proof.
  destruct (connect_again_forgets_subscriptions 1 "esp32_01" three_subscribers)
    as (_ & _ & H3 & H4).
  - apply (bool_decide_unpack _). vm_compute. exact I.
  - by split.
Defined.

(** A connection of a fresh handle is counted once more, with no
    subscription. *)
Theorem connect_fresh_counts ws m :
  ¬ registered m ws →
  connection_count (connect ws m) = S (connection_count m)
  ∧ subscription_count (connect ws m) = subscription_count m
  ∧ subscriptions (connect ws m) ws = ∅.
Proof.
  intros Hfresh. split_and!.
  - unfold connection_count, connect; simpl.
    apply map_size_insert_None, eq_None_not_Some. exact Hfresh.
  - done.
  - unfold subscriptions, connect; simpl. by rewrite lookup_insert_eq.
Qed.

Lemma connect_fresh_counts_witness :
  connection_count (connect 5 two_clients) = 3.
Proof.
  destruct (connect_fresh_counts 5 two_clients) as [H _].
  - intros [t Ht]. vm_compute in Ht. discriminate.
  - rewrite H. vm_compute. reflexivity.
Defined.

(** *** Counts *)

Lemma subscription_count_split m d :
  subscription_count m =
    size (subscribers m d)
    + map_fold (λ _ subs n, size subs + n) 0 (delete d (_device_subscribers m)).
Proof.
  unfold subscription_count, subscribers.
  destruct (_device_subscribers m !! d) as [s|] eqn:Hs; cbn [default].
  - apply (map_fold_delete_L (λ _ (subs : gset WebSocket) n, size subs + n));
      [intros; lia | done].
  - rewrite size_empty. by rewrite delete_id.
Qed.

Lemma delete_subscribers_subscribe ws d m :
  delete d (_device_subscribers (subscribe ws d m)) = delete d (_device_subscribers m).
Proof.
  apply map_eq. intros d'. destruct (decide (d = d')) as [<-|Hne].
  - by rewrite !lookup_delete_eq.
  - rewrite !lookup_delete_ne by done. rewrite lookup_subscribers_subscribe.
    by rewrite decide_False.
Qed.

Lemma delete_subscribers_unsubscribe ws d m :
  delete d (_device_subscribers (unsubscribe ws d m)) = delete d (_device_subscribers m).
Proof.
  apply map_eq. intros d'. destruct (decide (d = d')) as [<-|Hne].
  - by rewrite !lookup_delete_eq.
  - rewrite !lookup_delete_ne by done. rewrite lookup_subscribers_unsubscribe.
    by rewrite decide_False.
Qed.

Lemma subscribers_subscribe_same ws d m :
  subscribers (subscribe ws d m) d = subscribers m d ∪ {[ws]}.
Proof.
  unfold subscribers at 1. rewrite lookup_subscribers_subscribe.
  by rewrite decide_True.
Qed.

Lemma subscribers_unsubscribe_same ws d m :
  subscribers (unsubscribe ws d m) d = subscribers m d ∖ {[ws]}.
Proof.
  unfold subscribers. rewrite lookup_subscribers_unsubscribe.
  rewrite decide_True by done.
  destruct (_device_subscribers m !! d) as [s|]; simpl; [|set_solver].
  unfold pruned. case_decide as He; simpl; [by rewrite He|done].
Qed.

(** [subscription_count] counts the pairs of a connection and a topic it
    is a subscriber of: a subscribe adds one unless the pair was there, an
    unsubscribe takes one off if it was. *)
Theorem subscription_count_tracks ws d m :
  subscription_count (subscribe ws d m) =
    (if decide (ws ∈ subscribers m d) then subscription_count m
     else S (subscription_count m))
  ∧ subscription_count (unsubscribe ws d m) =
    (if decide (ws ∈ subscribers m d) then pred (subscription_count m)
     else subscription_count m).
Proof.
  split.
  - rewrite (subscription_count_split (subscribe ws d m) d).
    rewrite (subscription_count_split m d).
    rewrite delete_subscribers_subscribe, subscribers_subscribe_same.
    case_decide as Hin.
    + replace (subscribers m d ∪ {[ws]}) with (subscribers m d) by set_solver.
      done.
    + rewrite size_union by set_solver. rewrite size_singleton. lia.
  - rewrite (subscription_count_split (unsubscribe ws d m) d).
    rewrite (subscription_count_split m d).
    rewrite delete_subscribers_unsubscribe, subscribers_unsubscribe_same.
    case_decide as Hin.
    + assert (size (subscribers m d) = S (size (subscribers m d ∖ {[ws]}))) as ->.
      { rewrite (union_difference_L {[ws]} (subscribers m d)) at 1 by set_solver.
        rewrite size_union by set_solver. by rewrite size_singleton. }
      simpl. done.
    + replace (subscribers m d ∖ {[ws]}) with (subscribers m d) by set_solver.
      done.
Qed.

(** *** Broadcast *)

Lemma WebSocketState_eqb_CONNECTED (st : WebSocketState) :
  WebSocketState_eqb st CONNECTED = true ↔ st = CONNECTED.
Proof. destruct st; simpl; split; congruence. Qed.

Lemma elem_of_subscribers_foldl_disconnect (l : list WebSocket) m ws d :
  ws ∉ l →
  ws ∈ subscribers (foldl (λ m ws, disconnect ws m) m l) d ↔ ws ∈ subscribers m d.
Proof.
  revert m. induction l as [|x l IH]; intros m Hnin; simpl; [done|].
  apply not_elem_of_cons in Hnin as [Hne Hnin].
  rewrite IH by done. rewrite elem_of_subscribers_disconnect. naive_solver.
Qed.

Lemma foldl_disconnect_consistent (l : list WebSocket) m :
  mutually_consistent m → no_empty_topic m →
  mutually_consistent (foldl (λ m ws, disconnect ws m) m l)
  ∧ no_empty_topic (foldl (λ m ws, disconnect ws m) m l).
Proof.
  revert m. induction l as [|x l IH]; intros m Hc Hne; simpl; [done|].
  destruct (disconnect_consistent x m Hc Hne). by apply IH.
Qed.

Section WithNet.
Context {Msg : Type} (net : WebSocket → channel Msg).
Implicit Types (message : Msg).

Lemma elem_of_br_delivered d message m ws f :
  (ws, f) ∈ br_delivered (broadcast_to_device net d message m) ↔
    ws ∈ subscribers m d
    ∧ client_state (net ws) = CONNECTED
    ∧ is_ret (send_json (net ws) f) = true
    ∧ f = Frame "reading" d message.
Proof.
  rewrite broadcast_to_device_eq; cbv zeta; simpl.
  rewrite list_elem_of_fmap. split.
  - intros (ws' & [= -> ->] & Hin).
    apply list_elem_of_filter in Hin as [Hok Hin].
    apply elem_of_elements in Hin. unfold send_returns in Hok.
    apply Is_true_true, andb_true_iff in Hok as [Hst Hret].
    apply WebSocketState_eqb_CONNECTED in Hst. done.
  - intros (Hin & Hst & Hret & ->). exists ws. split; [done|].
    apply list_elem_of_filter. split; [|by apply elem_of_elements].
    unfold send_returns. by rewrite Hst, Hret.
Qed.

(** A broadcast delivers the frame of the message to the subscribers of
    the topic whose socket is connected and takes it, once each, and
    delivers nothing else to anyone. *)
Theorem broadcast_delivers_exactly d message m :
  let r := broadcast_to_device net d message m in
  (∀ ws f, (ws, f) ∈ br_delivered r ↔
      ws ∈ subscribers m d
      ∧ client_state (net ws) = CONNECTED
      ∧ is_ret (send_json (net ws) f) = true
      ∧ f = Frame "reading" d message)
  ∧ NoDup (br_delivered r).
Proof.
  cbv zeta. split; [intros; apply elem_of_br_delivered|].
  rewrite broadcast_to_device_eq; cbv zeta; simpl.
  apply NoDup_fmap_2.
  - intros x y [= ->]. done.
  - apply NoDup_filter, NoDup_elements.
Qed.

(** The sockets disconnected by a broadcast are the subscribers of the
    topic whose socket is connected and whose send raised. *)
Lemma elem_of_br_disconnected d message m ws :
  ws ∈ br_disconnected (broadcast_to_device net d message m) ↔
    ws ∈ subscribers m d
    ∧ client_state (net ws) = CONNECTED
    ∧ is_ret (send_json (net ws) (Frame "reading" d message)) = false.
Proof.
  rewrite broadcast_to_device_eq; cbv zeta; simpl.
  rewrite list_elem_of_filter, elem_of_elements. unfold send_raises.
  rewrite Is_true_true, andb_true_iff, negb_true_iff, WebSocketState_eqb_CONNECTED.
  tauto.
Qed.

(** A subscriber whose socket is not in the [CONNECTED] state is passed
    over: it is sent nothing, it is not disconnected, and it is still a
    subscriber of the topic and as registered as before after the call. *)
Theorem broadcast_skips_unconnected d message m ws :
  ws ∈ subscribers m d →
  client_state (net ws) ≠ CONNECTED →
  let r := broadcast_to_device net d message m in
  (∀ f, (ws, f) ∉ br_delivered r)
  ∧ (ws ∉ br_disconnected r)
  ∧ ws ∈ subscribers (br_manager r) d
  ∧ (registered (br_manager r) ws ↔ registered m ws).
Proof.
  intros Hin Hst. cbv zeta.
  assert (ws ∉ br_disconnected (broadcast_to_device net d message m)) as Hnd.
  { rewrite elem_of_br_disconnected. tauto. }
  split_and!.
  - intros f Hf. apply elem_of_br_delivered in Hf. tauto.
  - exact Hnd.
  - rewrite broadcast_to_device_eq in *; cbv zeta in *; simpl in *.
    by apply elem_of_subscribers_foldl_disconnect.
  - rewrite broadcast_to_device_eq in *; cbv zeta in *; simpl in *.
    rewrite (registered_foldl_disconnect net). tauto.
Qed.

(** When no send raises, the broadcast leaves the manager as it was. *)
Theorem broadcast_without_failure_keeps_manager d message m :
  (∀ ws, ws ∈ subscribers m d → client_state (net ws) = CONNECTED →
         is_ret (send_json (net ws) (Frame "reading" d message)) = true) →
  br_manager (broadcast_to_device net d message m) = m
  ∧ br_disconnected (broadcast_to_device net d message m) = [].
Proof.
  intros Hok.
  assert (br_disconnected (broadcast_to_device net d message m) = []) as Hnil.
  { apply elem_of_nil_inv. intros ws Hws.
    apply elem_of_br_disconnected in Hws as (Hin & Hst & Hko).
    rewrite (Hok ws Hin Hst) in Hko. discriminate. }
  split; [|exact Hnil].
  rewrite broadcast_to_device_eq in *; cbv zeta in *; simpl in *.
  by rewrite Hnil.
Qed.

(** A broadcast keeps the index consistent. *)
Theorem broadcast_keeps_consistent d message m :
  mutually_consistent m → no_empty_topic m →
  mutually_consistent (br_manager (broadcast_to_device net d message m))
  ∧ no_empty_topic (br_manager (broadcast_to_device net d message m)).
Proof.
  intros Hc Hne. rewrite broadcast_to_device_eq; cbv zeta; simpl.
  by apply foldl_disconnect_consistent.
Qed.

End WithNet.

Lemma broadcast_skips_unconnected_witness :
  2 ∈ subscribers (br_manager (broadcast_to_device closed_two "esp32_01" tt three_subscribers))
                  "esp32_01"
  ∧ br_disconnected (broadcast_to_device closed_two "esp32_01" tt three_subscribers) = [].
Proof.
  destruct (broadcast_skips_unconnected closed_two "esp32_01" tt three_subscribers 2)
    as (_ & _ & H3 & _).
  - apply (bool_decide_unpack _). vm_compute. exact I.
  - vm_compute. discriminate.
  - split; [exact H3|]. vm_compute. reflexivity.
Defined.

Lemma broadcast_without_failure_keeps_manager_witness :
  br_manager (broadcast_to_device always_up "esp32_01" tt three_subscribers)
    = three_subscribers.
Proof.
  apply (broadcast_without_failure_keeps_manager always_up "esp32_01" tt three_subscribers).
  intros ws _ _. reflexivity.
Defined.

Lemma broadcast_keeps_consistent_witness :
  mutually_consistent (br_manager (broadcast_to_device flaky_net "esp32_01" 42 three_subscribers)).
Proof.
  apply (broadcast_keeps_consistent flaky_net "esp32_01" 42 three_subscribers);
    apply three_subscribers_consistent.
Defined.

(** *** Every use of the interface the routes make *)

Lemma api_step_consistent m c :
  well_used m [c] →
  mutually_consistent m → no_empty_topic m →
  mutually_consistent (api_step m c) ∧ no_empty_topic (api_step m c).
Proof.
  destruct c as [ws|ws|ws d|ws d|net d]; simpl; intros [Hguard _] Hc Hne.
  - by apply connect_consistent.
  - by apply disconnect_consistent.
  - by apply subscribe_consistent.
  - by apply unsubscribe_consistent.
  - rewrite broadcast_to_device_eq; cbv zeta; simpl.
    by apply foldl_disconnect_consistent.
Qed.

(** Starting from the empty manager, every sequence of connects of
    unregistered connections, subscribes of registered ones,
    unsubscribes, disconnects and broadcasts leaves the index consistent
    and without empty topic. *)
Theorem api_run_consistent (cs : list api_call) :
  well_used init cs →
  mutually_consistent (api_run init cs) ∧ no_empty_topic (api_run init cs).
Proof.
  assert (∀ m, mutually_consistent m → no_empty_topic m → well_used m cs →
               mutually_consistent (api_run m cs) ∧ no_empty_topic (api_run m cs))
    as Hgen.
  { induction cs as [|c cs IH]; intros m Hc Hne Hused; [done|].
    destruct Hused as [Hguard Hrest]. unfold api_run; cbn [foldl].
    destruct (api_step_consistent m c) as [Hc' Hne']; [by split|done|done|].
    by apply IH. }
  intros Hused. apply Hgen; [apply init_consistent|apply init_consistent|done].
Qed.

Lemma api_run_consistent_witness :
  mutually_consistent (api_run init example_trace)
  ∧ no_empty_topic (api_run init example_trace).
Proof.
  apply (api_run_consistent example_trace).
  repeat split; try (eexists; vm_compute; reflexivity);
    intros [t Ht]; vm_compute in Ht; discriminate.
Defined.

End ManagerMore.

(* ===================================================================== *)
(** ** Realtime routes *)
(* ===================================================================== *)

Section RealtimeFacts.
Import WebSocketManager RealtimeRoutes.
Local Open Scope list_scope.

Implicit Types (m : manager) (ws : WebSocket) (d : string) (sock : socket).

Lemma lookup_eq_of_members m1 m2 d :
  no_empty_topic m1 → no_empty_topic m2 →
  (∀ ws, ws ∈ subscribers m1 d ↔ ws ∈ subscribers m2 d) →
  _device_subscribers m1 !! d = _device_subscribers m2 !! d.
Proof.
  intros H1 H2 Hmem. specialize (H1 d). specialize (H2 d).
  unfold subscribers in Hmem.
  destruct (_device_subscribers m1 !! d) as [s1|],
           (_device_subscribers m2 !! d) as [s2|]; simpl in Hmem.
  - f_equal. apply set_eq. exact Hmem.
  - exfalso. apply H1. f_equal. apply set_eq. intros x. rewrite Hmem. set_solver.
  - exfalso. apply H2. f_equal. apply set_eq. intros x. rewrite <- Hmem. set_solver.
  - done.
Qed.

Lemma session_of_connect m0 ws :
  mutually_consistent m0 → no_empty_topic m0 → ¬ registered m0 ws →
  session_of m0 ws (connect ws m0).
Proof.
  intros Hc Hne Hfresh.
  destruct (connect_consistent ws m0 Hfresh Hc Hne) as [Hc' Hne'].
  split_and!; [done|done| | |].
  - unfold registered, connect; simpl. rewrite lookup_insert_eq. eauto.
  - done.
  - intros ws' Hneq. unfold connect; simpl. by rewrite lookup_insert_ne.
Qed.

Lemma session_of_subscribe m0 ws d m :
  session_of m0 ws m → session_of m0 ws (subscribe ws d m).
Proof.
  intros (Hc & Hne & Hreg & Hsub & Hconn).
  destruct (subscribe_consistent ws d m Hreg Hc Hne) as [Hc' Hne'].
  split_and!; [done|done| | |].
  - by apply registered_subscribe.
  - intros ws' d' Hneq. rewrite elem_of_subscribers_subscribe.
    rewrite <- (Hsub ws' d' Hneq). naive_solver.
  - intros ws' Hneq. rewrite lookup_connections_subscribe.
    rewrite decide_False by done. by apply Hconn.
Qed.

Lemma session_of_unsubscribe m0 ws d m :
  session_of m0 ws m → session_of m0 ws (unsubscribe ws d m).
Proof.
  intros (Hc & Hne & Hreg & Hsub & Hconn).
  destruct (unsubscribe_consistent ws d m Hc Hne) as [Hc' Hne'].
  split_and!; [done|done| | |].
  - by apply registered_unsubscribe.
  - intros ws' d' Hneq. rewrite elem_of_subscribers_unsubscribe.
    rewrite <- (Hsub ws' d' Hneq). naive_solver.
  - intros ws' Hneq. rewrite lookup_connections_unsubscribe.
    rewrite decide_False by done. by apply Hconn.
Qed.

Lemma session_of_disconnect m0 ws m :
  mutually_consistent m0 → no_empty_topic m0 → ¬ registered m0 ws →
  session_of m0 ws m → disconnect ws m = m0.
Proof.
  intros Hc0 Hne0 Hfresh (Hc & Hne & Hreg & Hsub & Hconn).
  assert (_connection_subscriptions m0 !! ws = None) as Hnone
    by (apply eq_None_not_Some; exact Hfresh).
  destruct (disconnect_consistent ws m Hc Hne) as [_ Hne'].
  apply manager_eq; apply map_eq.
  - intros d. apply lookup_eq_of_members; [done|done|].
    intros ws'. rewrite elem_of_subscribers_disconnect.
    destruct (decide (ws' = ws)) as [->|Hneq].
    + split.
      * intros [Hin Hnot]. exfalso. apply Hnot. split; [done|]. by apply Hc.
      * intros Hin. apply Hc0 in Hin. unfold subscriptions in Hin.
        rewrite Hnone in Hin. set_solver.
    + rewrite (Hsub ws' d Hneq). naive_solver.
  - intros ws'. unfold disconnect; simpl.
    destruct (decide (ws = ws')) as [<-|Hneq].
    + by rewrite lookup_delete_eq.
    + rewrite lookup_delete_ne by done. by apply Hconn.
Qed.

Lemma session_of_device_try sock ws r m0 m out :
  session_of m0 ws m → session_of m0 ws (device_try sock ws r m out).1.2.
Proof.
  intros Hs. unfold device_try.
  destruct r as [action device_id|e]; [|done].
  destruct (is_action action "ping"); [by destruct (send_pong sock out)|].
  destruct (is_action action "subscribe").
  { destruct (truthy device_id); [by apply session_of_subscribe|done]. }
  destruct (is_action action "unsubscribe"); [|done].
  destruct (truthy device_id); [by apply session_of_unsubscribe|done].
Qed.


Lemma turn_manager sock try_body r m out :
  (turn sock try_body r m out).1.2 = (try_body r m out).1.2.
Proof.
  unfold turn. destruct (try_body r m out) as [[[[| |]|] m'] out']; done.
Qed.

Lemma message_loop_preserves sock try_body (P : manager → Prop) inbox :
  (∀ r m out, P m → P (try_body r m out).1.2) →
  ∀ m out, P m → P (message_loop sock try_body inbox m out).1.2.
Proof.
  intros Hstep. induction inbox as [|r inbox IH]; intros m out HP; [done|].
  cbn [message_loop].
  pose proof (Hstep r m out HP) as HP'. rewrite <- (turn_manager sock) in HP'.
  destruct (turn sock try_body r m out) as [[[e|] m'] out']; simpl in *; [done|].
  by apply IH.
Qed.

Lemma close_restores m0 ws res :
  mutually_consistent m0 → no_empty_topic m0 → ¬ registered m0 ws →
  session_of m0 ws res.1.2 →
  match (close ws res).1.1 with
  | Open => session_of m0 ws (close ws res).1.2
  | _ => (close ws res).1.2 = m0
  end.
Proof.
  intros Hc Hne Hfresh Hs. destruct res as [[[[| |]|] m] out]; simpl in *;
    try (by apply session_of_disconnect); done.
Qed.

(** A session of [stream_device_readings] opened for a fresh handle on a
    consistent manager, during which no other task makes a call on the
    manager, whatever the client sends: while the handler is in its loop
    the index is consistent and the other connections are where they
    were, and once the handler has returned or was left by an exception,
    the manager is the one the session found. *)
Theorem stream_device_readings_restores sock ws d (inbox : list received) m0 :
  mutually_consistent m0 → no_empty_topic m0 → ¬ registered m0 ws →
  match (stream_device_readings sock ws d inbox m0).1.1 with
  | Open => session_of m0 ws (stream_device_readings sock ws d inbox m0).1.2
  | _ => (stream_device_readings sock ws d inbox m0).1.2 = m0
  end.
Proof.
  intros Hc Hne Hfresh. unfold stream_device_readings.
  apply close_restores; [done|done|done|].
  apply (message_loop_preserves sock (device_try sock ws) (session_of m0 ws)).
  - intros r m out. apply session_of_device_try.
  - by apply session_of_subscribe, session_of_connect.
Qed.


Lemma stream_device_readings_restores_witness :
  (stream_device_readings good_socket 4 "esp32_01" example_inbox three_subscribers).1.2
    = three_subscribers.
Proof.
  pose proof (stream_device_readings_restores good_socket 4 "esp32_01" example_inbox
                three_subscribers) as H.
  apply H; try apply three_subscribers_consistent.
  intros [t Ht]. vm_compute in Ht. discriminate.
Defined.


(** *** A session among the other tasks *)

(** With no call of another task, the shared loop is the loop. *)
Lemma shared_loop_alone sock try_body (inbox : list received) m out :
  shared_loop sock try_body (Received <$> inbox) m out
  = message_loop sock try_body inbox m out.
Proof.
  revert m out. induction inbox as [|r inbox IH]; intros m out; [done|].
  cbn [fmap list_fmap shared_loop message_loop].
  destruct (turn sock try_body r m out) as [[[e|] m'] out']; [done|apply IH].
Qed.

Lemma lookup_connections_foldl (l : list WebSocket) m ws :
  _connection_subscriptions (foldl (λ m ws, disconnect ws m) m l) !! ws =
    if decide (ws ∈ l) then None else _connection_subscriptions m !! ws.
Proof.
  revert m. induction l as [|x l IH]; intros m; cbn [foldl].
  - by rewrite decide_False by apply not_elem_of_nil.
  - rewrite IH. unfold disconnect; cbn [_connection_subscriptions].
    destruct (decide (ws = x)) as [->|Hne].
    + rewrite lookup_delete_eq. rewrite (decide_True (P := x ∈ x :: l)) by left.
      by destruct (decide (x ∈ l)).
    + rewrite lookup_delete_ne by done.
      destruct (decide (ws ∈ l)) as [Hin|Hnin].
      * by rewrite decide_True by (by right).
      * rewrite decide_False; [done|]. by intros [?|?]%elem_of_cons.
Qed.

Lemma beside_subscriptions ws a m ws' :
  beside ws a m → ws' ≠ ws →
  subscriptions m ws' = subscriptions a ws' ∧ (registered m ws' ↔ registered a ws').
Proof.
  intros (_ & _ & _ & _ & _ & _ & _ & Hconn) Hne.
  unfold subscriptions, registered. by rewrite (Hconn ws' Hne).
Qed.

(** A call of another task keeps the two managers side by side. *)
Lemma beside_step ws a m (c : ManagerTrace.api_call) :
  beside ws a m → ManagerTrace.well_used a [c] → spares ws c →
  beside ws (ManagerTrace.api_step a c) (ManagerTrace.api_step m c).
Proof.
  intros Hb [Hguard _] Hspares.
  pose proof (beside_subscriptions ws a m) as Hsame.
  pose proof Hb as (Hca & Hnea & Hfresh & Hcm & Hnem & Hreg & Hsub & Hconn).
  destruct c as [ws'|ws'|ws' d|ws' d|net d]; cbn [ManagerTrace.api_step spares] in *.
  - (* connect *)
    destruct (Hsame ws' Hb Hspares) as [_ Hr].
    destruct (connect_consistent ws' a Hguard Hca Hnea) as [Hca' Hnea'].
    destruct (connect_consistent ws' m) as [Hcm' Hnem']; [tauto|done|done|].
    unfold beside, session_of; split_and!; try done.
    + unfold registered, connect; simpl. by rewrite lookup_insert_ne.
    + unfold registered, connect; simpl. by rewrite lookup_insert_ne.
    + intros x Hx. unfold connect; simpl.
      destruct (decide (ws' = x)) as [->|Hne'].
      * by rewrite !lookup_insert_eq.
      * rewrite !lookup_insert_ne by done. by apply Hconn.
  - (* disconnect *)
    destruct (Hsame ws' Hb Hspares) as [Hs _].
    destruct (disconnect_consistent ws' a Hca Hnea) as [Hca' Hnea'].
    destruct (disconnect_consistent ws' m Hcm Hnem) as [Hcm' Hnem'].
    unfold beside, session_of; split_and!; try done.
    + rewrite registered_disconnect. tauto.
    + rewrite registered_disconnect. split; [done|done].
    + intros x d' Hx. rewrite !elem_of_subscribers_disconnect, Hs.
      by rewrite (Hsub x d' Hx).
    + intros x Hx. unfold disconnect; simpl.
      destruct (decide (ws' = x)) as [->|Hne'].
      * by rewrite !lookup_delete_eq.
      * rewrite !lookup_delete_ne by done. by apply Hconn.
  - (* subscribe *)
    destruct (Hsame ws' Hb Hspares) as [_ Hr].
    destruct (subscribe_consistent ws' d a Hguard Hca Hnea) as [Hca' Hnea'].
    destruct (subscribe_consistent ws' d m) as [Hcm' Hnem']; [tauto|done|done|].
    unfold beside, session_of; split_and!; try done.
    + by rewrite registered_subscribe.
    + by rewrite registered_subscribe.
    + intros x d' Hx. rewrite !elem_of_subscribers_subscribe.
      by rewrite (Hsub x d' Hx).
    + intros x Hx. rewrite !lookup_connections_subscribe.
      destruct (decide (ws' = x)) as [->|Hne'].
      * by rewrite (Hconn x Hx).
      * by apply Hconn.
  - (* unsubscribe *)
    destruct (unsubscribe_consistent ws' d a Hca Hnea) as [Hca' Hnea'].
    destruct (unsubscribe_consistent ws' d m Hcm Hnem) as [Hcm' Hnem'].
    unfold beside, session_of; split_and!; try done.
    + by rewrite registered_unsubscribe.
    + by rewrite registered_unsubscribe.
    + intros x d' Hx. rewrite !elem_of_subscribers_unsubscribe.
      by rewrite (Hsub x d' Hx).
    + intros x Hx. rewrite !lookup_connections_unsubscribe.
      destruct (decide (ws' = x)) as [->|Hne'].
      * by rewrite (Hconn x Hx).
      * by apply Hconn.
  - (* broadcast *)
    rewrite !broadcast_to_device_eq; cbv zeta; cbn [br_manager].
    set (failed := λ m, filter (λ ws, send_raises net d tt ws)
                               (elements (subscribers m d))).
    assert (∀ x, x ≠ ws → x ∈ failed m ↔ x ∈ failed a) as Hfailed.
    { intros x Hx. unfold failed.
      rewrite !list_elem_of_filter, !elem_of_elements. by rewrite (Hsub x d Hx). }
    assert (ws ∉ failed m) as Hnot.
    { unfold failed. rewrite list_elem_of_filter. intros [Hr _].
      rewrite Hspares in Hr. done. }
    destruct (foldl_disconnect_consistent (failed a) a Hca Hnea) as [Hca' Hnea'].
    destruct (foldl_disconnect_consistent (failed m) m Hcm Hnem) as [Hcm' Hnem'].
    subst failed; cbv beta in *.
    unfold beside, session_of; split_and!; try done.
    + rewrite (registered_foldl_disconnect net). tauto.
    + rewrite (registered_foldl_disconnect net). done.
    + intros x d' Hx. rewrite !elem_of_subscribers_foldl.
      destruct (Hsame x Hb Hx) as [-> _].
      by rewrite (Hsub x d' Hx), (Hfailed x Hx).
    + intros x Hx. rewrite !lookup_connections_foldl.
      destruct (decide (x ∈ filter _ (elements (subscribers m d)))) as [Hin|Hnin].
      * rewrite decide_True; [done|]. by apply Hfailed.
      * rewrite decide_False; [by apply Hconn|]. by rewrite <- Hfailed.
Qed.

Lemma shared_loop_beside sock ws (events : list event) :
  ∀ a m out,
    beside ws a m →
    let others := calls_meanwhile sock (device_try sock ws) events m out in
    ManagerTrace.well_used a others → Forall (spares ws) others →
    beside ws (ManagerTrace.api_run a others)
           (shared_loop sock (device_try sock ws) events m out).1.2.
Proof.
  induction events as [|[r|c] events IH]; intros a m out Hb; cbv zeta.
  - done.
  - cbn [calls_meanwhile shared_loop].
    assert (beside ws a (turn sock (device_try sock ws) r m out).1.2) as Hb'.
    { destruct Hb as (? & ? & ? & Hs). split_and!; try done.
      rewrite turn_manager. by apply session_of_device_try. }
    destruct (turn sock (device_try sock ws) r m out) as [[[e|] m'] out'];
      simpl in Hb'.
    + done.
    + intros Hused Hsp. by apply IH.
  - cbn [calls_meanwhile shared_loop ManagerTrace.well_used].
    intros [Hguard Hused] [Hc Hsp]%Forall_cons.
    unfold ManagerTrace.api_run; cbn [foldl].
    apply IH; [|done|done].
    apply beside_step; [done| |done]. by split.
Qed.

(** A session of [stream_device_readings] opened for a fresh handle on
    a consistent manager, among the calls that other tasks make on the
    manager meanwhile, whatever the client sends. Provided those calls
    connect unregistered connections and subscribe registered ones, are
    made on other connections, and include no broadcast whose send on
    the socket of the session raises: while the handler is in its loop
    the index is consistent and the other connections are where the
    other tasks alone have put them, and once the handler has returned
    or was left by an exception, the manager is the one the other tasks
    alone have made of the manager the session found. *)
Theorem shared_session_restores sock ws d (events : list event) m0 :
  mutually_consistent m0 → no_empty_topic m0 → ¬ registered m0 ws →
  let others := others_during sock ws d events m0 in
  ManagerTrace.well_used m0 others → Forall (spares ws) others →
  let s := shared_stream_device_readings sock ws d events m0 in
  match s.1.1 with
  | Open => session_of (ManagerTrace.api_run m0 others) ws s.1.2
  | _ => s.1.2 = ManagerTrace.api_run m0 others
  end.
Proof.
  intros Hc Hne Hfresh others Hused Hsp. cbv zeta.
  unfold shared_stream_device_readings.
  destruct (shared_loop_beside sock ws events m0
              (subscribe ws d (connect ws m0))
              (send_ack sock ("Subscribed to device: " ++ d) []))
    as (Hc' & Hne' & Hfresh' & Hs); [|exact Hused|exact Hsp|].
  - split_and!; try done. by apply session_of_subscribe, session_of_connect.
  - by apply close_restores.
Qed.

(** When a broadcast's send on the socket of the session raises, the
    broadcast disconnects the connection; a subscription the client asks
    for afterwards puts the unregistered connection in a topic, where
    the disconnect that ends the session leaves it. *)
Example broken_session_leaves_subscriber :
  let s := shared_stream_device_readings good_socket 4 "esp32_01" broken_session init in
  s.1.1 = Returned
  ∧ 4 ∈ subscribers s.1.2 "esp32_02"
  ∧ ¬ registered s.1.2 4
  ∧ ManagerTrace.api_run init (others_during good_socket 4 "esp32_01" broken_session init)
    = init.
Proof.
  cbv zeta. split_and!.
  - vm_compute. reflexivity.
  - apply (bool_decide_unpack _). vm_compute. exact I.
  - intros [t Ht]. vm_compute in Ht. discriminate.
  - vm_compute. reflexivity.
Qed.

Lemma shared_session_restores_witness :
  (shared_stream_device_readings good_socket 4 "esp32_01" example_events
     three_subscribers).1.2
  = ManagerTrace.api_run three_subscribers
      [ManagerTrace.BroadcastTo two_is_down "esp32_01";
       ManagerTrace.Connect 5;
       ManagerTrace.SubscribeTo 5 "esp32_02";
       ManagerTrace.UnsubscribeFrom 1 "esp32_01"].
Proof.
  pose proof (shared_session_restores good_socket 4 "esp32_01" example_events
                three_subscribers) as H.
  cbv zeta in H.
  assert (others_during good_socket 4 "esp32_01" example_events three_subscribers
          = [ManagerTrace.BroadcastTo two_is_down "esp32_01";
             ManagerTrace.Connect 5;
             ManagerTrace.SubscribeTo 5 "esp32_02";
             ManagerTrace.UnsubscribeFrom 1 "esp32_01"]) as Hothers
    by (vm_compute; reflexivity).
  rewrite Hothers in H.
  apply H; try apply three_subscribers_consistent.
  - intros [t Ht]. vm_compute in Ht. discriminate.
  - repeat split; try (eexists; vm_compute; reflexivity);
      intros [t Ht]; vm_compute in Ht; discriminate.
  - repeat constructor; done.
Defined.

End RealtimeFacts.

(* ===================================================================== *)
(** ** TimeRange: further properties *)
(* ===================================================================== *)

Section TimeRangeMore.
Import Durations.
Local Open Scope Z_scope.

Lemma mk_timedelta_Ret us delta : mk_timedelta us = Ret delta → delta = us.
Proof. unfold mk_timedelta. case_match; congruence. Qed.

Lemma datetime_sub_Ret dt delta r :
  datetime_sub dt delta = Ret r → r = dt - delta ∧ datetime_min ≤ r ≤ datetime_max.
Proof.
  unfold datetime_sub. destruct (_ || _) eqn:Hb; [done|]. intros [= <-].
  apply orb_false_iff in Hb as [H1 H2]. apply Z.ltb_ge in H1, H2. done.
Qed.

(** Every range that [TimeRange.last] returns ends at the reference
    time, starts before it and not before the first representable
    time, and spans a positive whole number of minutes, hours, days or
    weeks. *)
Theorem last_returns_sound duration_str now utcnow (r : TimeRange.t) :
  TimeRange.last duration_str now utcnow = Ret r →
  TimeRange.end_ r = default utcnow now
  ∧ TimeRange.start r < TimeRange.end_ r
  ∧ datetime_min ≤ TimeRange.start r
  ∧ ∃ value unit,
      0 < value ∧ TimeRange.is_unit unit = true
      ∧ TimeRange.duration r = value * unit_microseconds unit.
Proof.
  unfold TimeRange.last.
  destruct (TimeRange.re_match (lower duration_str)) as [[digits u]|] eqn:Hm; [|done].
  destruct (TimeRange.int digits) as [value|] eqn:Hint; [|done].
  destruct (value <=? 0) eqn:Hpos; [done|]. apply Z.leb_gt in Hpos.
  set (delta := if Ascii.eqb u "m" then _ else _).
  destruct delta as [us|] eqn:Hdelta; [|done].
  destruct (datetime_sub (default utcnow now) us) as [start|] eqn:Hsub; [|done].
  apply datetime_sub_Ret in Hsub as [-> Hrange].
  unfold TimeRange.make. destruct (_ <=? _) eqn:Hle; [done|]. intros [= <-].
  apply Z.leb_gt in Hle. unfold TimeRange.duration; simpl.
  split_and!; [done|lia|lia|].
  exists value, u. unfold unit_microseconds, TimeRange.is_unit.
  subst delta.
  destruct (Ascii.eqb u "m") eqn:Em.
  { apply mk_timedelta_Ret in Hdelta. rewrite orb_true_r. split_and!; [lia|done|lia]. }
  destruct (Ascii.eqb u "h") eqn:Eh.
  { apply mk_timedelta_Ret in Hdelta. split_and!; [lia|done|lia]. }
  destruct (Ascii.eqb u "d") eqn:Ed.
  { apply mk_timedelta_Ret in Hdelta. rewrite orb_true_r. split_and!; [lia|done|lia]. }
  destruct (Ascii.eqb u "w") eqn:Ew; [|done].
  apply mk_timedelta_Ret in Hdelta. split_and!; [lia|done|lia].
Qed.

Lemma last_returns_sound_witness :
  let r := TimeRange.Make (mk_datetime 2024 1 8 12 0 0) (mk_datetime 2024 1 15 12 0 0) in
  TimeRange.end_ r = mk_datetime 2024 1 15 12 0 0
  ∧ TimeRange.start r < TimeRange.end_ r
  ∧ datetime_min ≤ TimeRange.start r
  ∧ ∃ value unit,
      0 < value ∧ TimeRange.is_unit unit = true
      ∧ TimeRange.duration r = value * unit_microseconds unit.
Proof.
  apply (last_returns_sound "1W" (Some (mk_datetime 2024 1 15 12 0 0)) 0).
  reflexivity.
Defined.

(** *** The strings that are accepted *)

Lemma lower_ascii_idempotent c : lower_ascii (lower_ascii c) = lower_ascii c.
Proof. destruct c as [[] [] [] [] [] [] [] []]; reflexivity. Qed.

Lemma lower_idempotent s : lower (lower s) = lower s.
Proof.
  induction s as [|c s IH]; simpl; [done|].
  by rewrite lower_ascii_idempotent, IH.
Qed.

Lemma lower_ascii_digit c : is_digit c = true → lower_ascii c = c.
Proof. destruct c as [[] [] [] [] [] [] [] []]; simpl; intros; done. Qed.

Lemma unit_facts u :
  TimeRange.is_unit u = true → lower_ascii u = u ∧ is_digit u = false.
Proof. destruct u as [[] [] [] [] [] [] [] []]; simpl; intros; done. Qed.

Lemma lower_digits ds : all_digits ds = true → lower ds = ds.
Proof.
  induction ds as [|c ds IH]; simpl; [done|].
  intros [Hc Hds]%andb_true_iff. by rewrite lower_ascii_digit, IH.
Qed.

Lemma lower_app a b : lower (a ++ b) = (lower a ++ lower b)%string.
Proof. induction a as [|c a IH]; simpl; [done|]. by rewrite IH. Qed.

Lemma span_digits_app ds c rest :
  all_digits ds = true → is_digit c = false →
  TimeRange.span_digits (ds ++ String c rest) = (ds, String c rest).
Proof.
  intros Hds Hc. induction ds as [|x ds IH]; simpl.
  - by rewrite Hc.
  - simpl in Hds. apply andb_true_iff in Hds as [Hx Hds].
    rewrite Hx, IH by done. done.
Qed.

Lemma re_match_accepts ds u suffix :
  ds ≠ EmptyString → all_digits ds = true →
  TimeRange.is_unit u = true → line_end suffix = true →
  TimeRange.re_match (ds ++ String u suffix) = Some (ds, u).
Proof.
  intros Hne Hds Hu Hsuf. unfold TimeRange.re_match.
  destruct (unit_facts u Hu) as [_ Hnd].
  rewrite span_digits_app by done.
  destruct ds as [|c ds]; [done|].
  apply orb_true_iff in Hsuf as [->%String.eqb_eq| ->%String.eqb_eq].
  - by rewrite Hu.
  - by rewrite Hu.
Qed.

Lemma int_digits ds :
  (String.length ds ≤ 4300)%nat →
  TimeRange.int ds = Ret (TimeRange.int_of_digits 0 ds).
Proof.
  intros Hlen. unfold TimeRange.int.
  destruct (4300 <? String.length ds)%nat eqn:E; [|done].
  apply Nat.ltb_lt in E. lia.
Qed.

Lemma unit_delta u value :
  TimeRange.is_unit u = true →
  (if Ascii.eqb u "m" then mk_timedelta (value * 60 * us_per_second)
   else if Ascii.eqb u "h" then mk_timedelta (value * 3600 * us_per_second)
   else if Ascii.eqb u "d" then mk_timedelta (value * us_per_day)
   else if Ascii.eqb u "w" then mk_timedelta (value * 7 * us_per_day)
   else Raise (ValueError "Unknown time unit"))
  = mk_timedelta (value * unit_microseconds u).
Proof.
  unfold unit_microseconds, TimeRange.is_unit.
  destruct (Ascii.eqb u "m"); [intros _; f_equal; lia|].
  destruct (Ascii.eqb u "h"); [intros _; f_equal; lia|].
  destruct (Ascii.eqb u "d"); [intros _; f_equal; lia|].
  destruct (Ascii.eqb u "w"); [intros _; f_equal; lia|done].
Qed.

(** What [TimeRange.last] does with a well-formed string: digits, a unit
    letter and at most one newline. *)
Lemma last_well_formed ds u suffix now utcnow :
  ds ≠ EmptyString → all_digits ds = true → (String.length ds ≤ 4300)%nat →
  TimeRange.is_unit u = true → line_end suffix = true →
  TimeRange.last (ds ++ String u suffix) now utcnow =
    let value := TimeRange.int_of_digits 0 ds in
    if value <=? 0 then Raise (ValueError "Duration must be positive")
    else match mk_timedelta (value * unit_microseconds u) with
         | Raise e => Raise e
         | Ret delta =>
             match datetime_sub (default utcnow now) delta with
             | Raise e => Raise e
             | Ret start => TimeRange.make start (default utcnow now)
             end
         end.
Proof.
  intros Hne Hds Hlen Hu Hsuf. unfold TimeRange.last.
  assert (lower (ds ++ String u suffix) = (ds ++ String u suffix)%string) as ->.
  { rewrite lower_app, lower_digits by done. simpl.
    destruct (unit_facts u Hu) as [-> _]. f_equal. f_equal.
    apply orb_true_iff in Hsuf as [->%String.eqb_eq| ->%String.eqb_eq]; done. }
  rewrite re_match_accepts, int_digits by done. cbv zeta.
  destruct (_ <=? 0); [done|]. by rewrite unit_delta.
Qed.

(** A string of digits of positive value [n], a unit letter and at most
    one newline is accepted when the range of [n] units that ends at the
    reference time starts at a representable time; the range returned is
    that one. *)
Theorem last_accepts ds u suffix (now : datetime) utcnow :
  ds ≠ EmptyString → all_digits ds = true → (String.length ds ≤ 4300)%nat →
  TimeRange.is_unit u = true → line_end suffix = true →
  0 < TimeRange.int_of_digits 0 ds →
  now ≤ datetime_max →
  datetime_min ≤ now - TimeRange.int_of_digits 0 ds * unit_microseconds u →
  TimeRange.last (ds ++ String u suffix) (Some now) utcnow =
    Ret (TimeRange.Make (now - TimeRange.int_of_digits 0 ds * unit_microseconds u) now).
Proof.
  intros Hne Hds Hlen Hu Hsuf Hpos Hmax Hmin.
  rewrite last_well_formed by done. cbv zeta.
  set (value := TimeRange.int_of_digits 0 ds) in *.
  assert (0 < unit_microseconds u) as Hunit.
  { unfold unit_microseconds, us_per_day, us_per_second. repeat case_match; lia. }
  rewrite (proj2 (Z.leb_gt _ _)) by lia.
  unfold mk_timedelta, datetime_sub, TimeRange.make, datetime_min, datetime_max in *.
  simpl default.
  assert (0 ≤ value * unit_microseconds u / us_per_day ≤ 999999999) as Hdays.
  { unfold us_per_day, us_per_second in *. split.
    - apply Z.div_pos; lia.
    - apply Z.div_le_upper_bound; lia. }
  rewrite (proj2 (orb_false_iff _ _)) by (split; apply Z.ltb_ge; lia).
  rewrite (proj2 (orb_false_iff _ _))
    by (unfold us_per_day, us_per_second in *; split; apply Z.ltb_ge; lia).
  rewrite (proj2 (Z.leb_gt _ _)) by lia. done.
Qed.

Lemma last_accepts_witness :
  TimeRange.last "90m" (Some (mk_datetime 2024 1 15 12 0 0)) 0 =
    Ret (TimeRange.Make (mk_datetime 2024 1 15 10 30 0) (mk_datetime 2024 1 15 12 0 0)).
Proof.
  apply (last_accepts "90" "m"%char "" (mk_datetime 2024 1 15 12 0 0) 0).
  - discriminate.
  - reflexivity.
  - simpl. lia.
  - reflexivity.
  - reflexivity.
  - reflexivity.
  - vm_compute. discriminate.
  - vm_compute. discriminate.
Defined.

(** A well-formed string whose range would start before the first
    representable time makes [TimeRange.last] raise [OverflowError],
    which is not a [ValueError]. *)
Theorem last_overflows ds u suffix (now : datetime) utcnow :
  ds ≠ EmptyString → all_digits ds = true → (String.length ds ≤ 4300)%nat →
  TimeRange.is_unit u = true → line_end suffix = true →
  now - TimeRange.int_of_digits 0 ds * unit_microseconds u < datetime_min →
  0 ≤ now →
  ∃ msg, TimeRange.last (ds ++ String u suffix) (Some now) utcnow =
           Raise (OverflowError msg).
Proof.
  intros Hne Hds Hlen Hu Hsuf Hbefore Hnow.
  rewrite last_well_formed by done. cbv zeta.
  set (value := TimeRange.int_of_digits 0 ds) in *.
  assert (0 < unit_microseconds u) as Hunit.
  { unfold unit_microseconds, us_per_day, us_per_second. repeat case_match; lia. }
  unfold datetime_min in *.
  rewrite (proj2 (Z.leb_gt _ _)) by nia.
  unfold mk_timedelta. destruct (_ || _); [eauto|].
  unfold datetime_sub; simpl default.
  rewrite (proj2 (Z.ltb_lt _ _)) by (unfold datetime_min; lia). simpl. eauto.
Qed.

Lemma last_overflows_witness :
  ∃ msg, TimeRange.last "800000d" (Some (mk_datetime 2024 1 15 12 0 0)) 0 =
           Raise (OverflowError msg).
Proof.
  apply (last_overflows "800000" "d"%char "" (mk_datetime 2024 1 15 12 0 0) 0).
  - discriminate.
  - reflexivity.
  - simpl. lia.
  - reflexivity.
  - reflexivity.
  - reflexivity.
  - vm_compute. discriminate.
Defined.

(** The case of the letters of a duration string does not matter. *)
Lemma last_ignores_case duration_str now utcnow :
  TimeRange.last (lower duration_str) now utcnow =
    TimeRange.last duration_str now utcnow.
Proof. unfold TimeRange.last. by rewrite lower_idempotent. Qed.

End TimeRangeMore.

(* ===================================================================== *)
(** ** SensorMetrics: further properties *)
(* ===================================================================== *)

Section MetricsMore.
Local Open Scope list_scope.

Lemma make_Ret t h v m :
  SensorMetrics.make t h v = Ret m → m = SensorMetrics.Make t h v.
Proof.
  unfold SensorMetrics.make, SensorMetrics.check.
  repeat case_match; congruence.
Qed.

Lemma to_dict_lookup m :
  SensorMetrics.to_dict m !! "temperature" = SensorMetrics.temperature m
  ∧ SensorMetrics.to_dict m !! "humidity" = SensorMetrics.humidity m
  ∧ SensorMetrics.to_dict m !! "voltage" = SensorMetrics.voltage m.
Proof.
  destruct m as [[t|] [h|] [v|]]; unfold SensorMetrics.to_dict, SensorMetrics.put;
    simpl; split_and!; by simplify_map_eq.
Qed.

(** The dictionary of a metrics value that was accepted is read back as
    the same value, and it is empty exactly when the value has no
    metric. *)
Theorem metrics_round_trip t h v m :
  SensorMetrics.make t h v = Ret m →
  SensorMetrics.from_dict (SensorMetrics.to_dict m) = Ret m
  ∧ (SensorMetrics.has_any_metric m = false ↔ SensorMetrics.to_dict m = ∅).
Proof.
  intros Hmake. pose proof (make_Ret _ _ _ _ Hmake) as ->. split.
  - unfold SensorMetrics.from_dict.
    destruct (to_dict_lookup (SensorMetrics.Make t h v)) as (-> & -> & ->).
    exact Hmake.
  - destruct t, h, v; unfold SensorMetrics.to_dict, SensorMetrics.put; simpl;
      split; try done; intros Heq;
      match type of Heq with
      | ?d = ∅ =>
          first
            [ assert (d !! "temperature" = None) as Hl by (by rewrite Heq);
              by simplify_map_eq
            | assert (d !! "humidity" = None) as Hl by (by rewrite Heq);
              by simplify_map_eq
            | assert (d !! "voltage" = None) as Hl by (by rewrite Heq);
              by simplify_map_eq ]
      end.
Qed.

Lemma metrics_round_trip_witness :
  SensorMetrics.from_dict
    (SensorMetrics.to_dict (SensorMetrics.Make (Some 25.5%float) None (Some 3.25%float)))
  = Ret (SensorMetrics.Make (Some 25.5%float) None (Some 3.25%float)).
Proof.
  apply (metrics_round_trip (Some 25.5%float) None (Some 3.25%float)).
  vm_compute. reflexivity.
Defined.

(** [from_dict] reads the keys temperature, humidity and voltage and no
    other: two dictionaries that agree on these give the same result. *)
Lemma from_dict_three_keys (data data' : gmap string float) :
  data !! "temperature" = data' !! "temperature" →
  data !! "humidity" = data' !! "humidity" →
  data !! "voltage" = data' !! "voltage" →
  SensorMetrics.from_dict data = SensorMetrics.from_dict data'.
Proof. unfold SensorMetrics.from_dict. by intros -> -> ->. Qed.

(** A value that is not a finite number (NaN, or an infinity) is refused
    in each of the three fields, whatever the other fields hold. *)
Theorem metrics_refuse_non_finite (x : float) t h v :
  x ∈ [nan; infinity; neg_infinity] →
  t = Some x ∨ h = Some x ∨ v = Some x →
  ∃ msg, SensorMetrics.make t h v = Raise (ValueError msg).
Proof.
  intros Hx Hfield.
  assert (SensorMetrics.between SensorMetrics.TEMP_MIN SensorMetrics.TEMP_MAX x = false
          ∧ SensorMetrics.between SensorMetrics.HUMIDITY_MIN SensorMetrics.HUMIDITY_MAX x = false
          ∧ SensorMetrics.between SensorMetrics.VOLTAGE_MIN SensorMetrics.VOLTAGE_MAX x = false)
    as (Ht & Hh & Hv).
  { repeat (apply elem_of_cons in Hx as [-> | Hx]); [| | |by apply elem_of_nil in Hx];
      split_and!; reflexivity. }
  unfold SensorMetrics.make, SensorMetrics.check.
  destruct Hfield as [-> | [-> | ->]].
  - rewrite Ht. eauto.
  - rewrite Hh.
    destruct t as [y|]; [destruct (SensorMetrics.between _ _ y)|]; eauto.
  - rewrite Hv.
    destruct t as [y|];
      [destruct (SensorMetrics.between SensorMetrics.TEMP_MIN SensorMetrics.TEMP_MAX y)|];
      eauto;
      (destruct h as [z|];
       [destruct (SensorMetrics.between SensorMetrics.HUMIDITY_MIN
                    SensorMetrics.HUMIDITY_MAX z)|];
       eauto).
Qed.

Lemma metrics_refuse_non_finite_witness :
  ∃ msg, SensorMetrics.make (Some 20%float) (Some nan) None = Raise (ValueError msg).
Proof.
  apply (metrics_refuse_non_finite nan (Some 20%float) (Some nan) None).
  - apply list_elem_of_here.
  - right. left. reflexivity.
Defined.

End MetricsMore.

(* ===================================================================== *)
(** ** IngestionService: further properties *)
(* ===================================================================== *)

Section IngestionMore.
Import IngestionService.
Local Open Scope list_scope.

Lemma from_dict_valid (metrics_data : gmap string float) :
  ¬ invalid_metrics metrics_data →
  let m := SensorMetrics.Make (metrics_data !! "temperature")
             (metrics_data !! "humidity") (metrics_data !! "voltage") in
  SensorMetrics.from_dict metrics_data = Ret m
  ∧ SensorMetrics.has_any_metric m = true.
Proof.
  intros Hvalid. cbv zeta.
  unfold SensorMetrics.from_dict, SensorMetrics.make, SensorMetrics.check.
  unfold invalid_metrics in Hvalid.
  destruct (metrics_data !! "temperature") as [t|] eqn:Et.
  { destruct (SensorMetrics.between _ _ t) eqn:Bt; [|exfalso; eauto 10].
    destruct (metrics_data !! "humidity") as [h|] eqn:Eh.
    { destruct (SensorMetrics.between _ _ h) eqn:Bh; [|exfalso; eauto 10].
      destruct (metrics_data !! "voltage") as [v|] eqn:Ev; [|done].
      destruct (SensorMetrics.between _ _ v) eqn:Bv; [done|exfalso; eauto 10]. }
    destruct (metrics_data !! "voltage") as [v|] eqn:Ev; [|done].
    destruct (SensorMetrics.between _ _ v) eqn:Bv; [done|exfalso; eauto 10]. }
  destruct (metrics_data !! "humidity") as [h|] eqn:Eh.
  { destruct (SensorMetrics.between _ _ h) eqn:Bh; [|exfalso; eauto 10].
    destruct (metrics_data !! "voltage") as [v|] eqn:Ev; [|done].
    destruct (SensorMetrics.between _ _ v) eqn:Bv; [done|exfalso; eauto 10]. }
  destruct (metrics_data !! "voltage") as [v|] eqn:Ev; [|exfalso; eauto 10].
  destruct (SensorMetrics.between _ _ v) eqn:Bv; [done|exfalso; eauto 10].
Qed.

Lemma create_Ret device_id metrics now uuid4 reading :
  Reading.create device_id metrics (Some now) uuid4 now = Ret reading ↔
    strip device_id ≠ EmptyString
    ∧ reading = Reading.Make uuid4 (strip device_id) metrics now.
Proof.
  unfold Reading.create.
  destruct (String.eqb device_id EmptyString) eqn:E1; simpl.
  - apply String.eqb_eq in E1 as ->. split; [done|]. intros [H _]. done.
  - destruct (String.eqb (strip device_id) EmptyString) eqn:E2.
    + apply String.eqb_eq in E2. split; [done|]. intros [H _]. done.
    + apply String.eqb_neq in E2. split; [by intros [= <-]|by intros [_ ->]].
Qed.

Section WithEnvironment.
Context (settings : Settings.t) (now : datetime) (uuid4 : UUID).
Implicit Types (w : world) (device_id : string) (api_key : option string)
  (net : WebSocket → channel Reading.dict).

Lemma ingest_returns net device_id metrics_data api_key w :
  ((∃ reading, (ingest settings net now uuid4 device_id metrics_data api_key w).1
               = Ret reading) ↔
     valid_key settings api_key
     ∧ (∃ device, devices w !! device_id = Some device
                  ∧ Device.is_active device = true)
     ∧ ¬ invalid_metrics metrics_data
     ∧ strip device_id ≠ EmptyString)
  ∧ (∀ reading,
       (ingest settings net now uuid4 device_id metrics_data api_key w).1 = Ret reading →
       reading =
         Reading.Make uuid4 (strip device_id)
           (SensorMetrics.Make (metrics_data !! "temperature")
              (metrics_data !! "humidity") (metrics_data !! "voltage"))
           now).
Proof.
  destruct (classic_valid_key settings api_key) as [Hk|Hk];
    [|rewrite (ingest_bad_key _ _ _ _ _ _ _ _ Hk); simpl; split;
      [split; [by intros [? ?]|tauto] | done]].
  rewrite (ingest_good_key _ _ _ _ _ _ _ _ Hk).
  destruct (devices w !! device_id) as [device|];
    [|simpl; split; [split; [by intros [? ?]|by intros (_ & (? & ? & _) & _)]|done]].
  destruct (Device.is_active device) eqn:Hact; cbn [negb];
    [|simpl; split; [split; [by intros [? ?]|]|done];
      intros (_ & (dev & [= <-] & Hdev) & _); congruence].
  destruct (SensorMetrics.from_dict metrics_data) as [metrics|e] eqn:Hfrom.
  2:{ assert (¬ ¬ invalid_metrics metrics_data) as Hinv.
      { intros Hv. destruct (from_dict_valid _ Hv) as [H _]. congruence. }
      destruct e; simpl; (split; [split; [by intros [? ?]|tauto]|done]). }
  destruct (SensorMetrics.has_any_metric metrics) eqn:Hany; cbn [negb].
  2:{ assert (¬ ¬ invalid_metrics metrics_data) as Hinv.
      { intros Hv. destruct (from_dict_valid _ Hv) as [H H']. congruence. }
      simpl; split; [split; [by intros [? ?]|tauto]|done]. }
  assert (¬ invalid_metrics metrics_data) as Hvalid.
  { intros [(msg & Hr)|(m' & Hr & Hn)]%from_dict_invalid; congruence. }
  destruct (from_dict_valid _ Hvalid) as [Hm _].
  rewrite Hfrom in Hm. injection Hm as ->.
  destruct (Reading.create _ _ _ _ _) as [r|e] eqn:Hcreate.
  - rewrite persist_and_broadcast. cbv zeta. cbn [fst].
    apply create_Ret in Hcreate as [Hstrip ->]. split.
    + split; [intros _; split_and!; eauto|eauto].
    + by intros reading [= <-].
  - simpl. split; [|done]. split; [by intros [? ?]|].
    intros (_ & _ & _ & Hstrip).
    assert (∃ r, Reading.create device_id
                   (SensorMetrics.Make (metrics_data !! "temperature")
                      (metrics_data !! "humidity") (metrics_data !! "voltage"))
                   (Some now) uuid4 now = Ret r) as [r Hr]
      by (eexists; by apply create_Ret).
    congruence.
Qed.

(** [ingest] returns exactly when the key is a configured one, the
    device is known and active, the payload has at least one metric and
    every metric in range, and the identifier is not blank; the reading
    it returns carries the server's time, the fresh identifier and the
    three metrics of the payload. *)
Theorem ingest_succeeds_iff net device_id metrics_data api_key w :
  ((∃ reading, (ingest settings net now uuid4 device_id metrics_data api_key w).1
               = Ret reading) ↔
     valid_key settings api_key
     ∧ (∃ device, devices w !! device_id = Some device
                  ∧ Device.is_active device = true)
     ∧ ¬ invalid_metrics metrics_data
     ∧ strip device_id ≠ EmptyString)
  ∧ (∀ reading,
       (ingest settings net now uuid4 device_id metrics_data api_key w).1 = Ret reading →
       reading =
         Reading.Make uuid4 (strip device_id)
           (SensorMetrics.Make (metrics_data !! "temperature")
              (metrics_data !! "humidity") (metrics_data !! "voltage"))
           now).
Proof. apply ingest_returns. Qed.

(** The payload is read through its keys temperature, humidity and
    voltage only: any other key, such as a timestamp of the client, has
    no effect on the call. *)
Theorem ingest_ignores_other_keys net device_id (data data' : gmap string float)
    api_key w :
  data !! "temperature" = data' !! "temperature" →
  data !! "humidity" = data' !! "humidity" →
  data !! "voltage" = data' !! "voltage" →
  ingest settings net now uuid4 device_id data api_key w =
    ingest settings net now uuid4 device_id data' api_key w.
Proof.
  intros Ht Hh Hv. unfold ingest, parse_metrics.
  by rewrite (from_dict_three_keys data data' Ht Hh Hv).
Qed.

(** What the sockets do has no part in the outcome of a call, in the
    reading written or in the devices table; on success the device is
    marked as seen at the server's time and no other device changes. *)
Theorem ingest_outcome_ignores_sockets net net' device_id metrics_data api_key w :
  let r := ingest settings net now uuid4 device_id metrics_data api_key w in
  let r' := ingest settings net' now uuid4 device_id metrics_data api_key w in
  r.1 = r'.1
  ∧ readings r.2 = readings r'.2
  ∧ devices r.2 = devices r'.2
  ∧ (is_ret r.1 = true →
       devices r.2 = alter (λ d, Device.with_last_seen d now) device_id (devices w)).
Proof.
  cbv zeta.
  destruct (classic_valid_key settings api_key) as [Hk|Hk];
    [|by rewrite !(ingest_bad_key _ _ _ _ _ _ _ _ Hk)].
  rewrite !(ingest_good_key _ _ _ _ _ _ _ _ Hk).
  destruct (devices w !! device_id) as [device|]; [|done].
  destruct (Device.is_active device); cbn [negb]; [|done].
  destruct (SensorMetrics.from_dict metrics_data) as [metrics|[]]; try done.
  destruct (SensorMetrics.has_any_metric metrics); cbn [negb]; [|done].
  destruct (Reading.create _ _ _ _ _) as [r|]; [|done].
  rewrite !persist_and_broadcast. cbv zeta.
  destruct (_ws_manager w); done.
Qed.

End WithEnvironment.

Lemma ingest_succeeds_iff_witness :
  ∃ reading,
    (ingest example_settings healthy_net example_now 77
            "esp32_01" example_metrics (Some "key-b") example_world).1 = Ret reading.
Proof.
  apply (ingest_succeeds_iff example_settings example_now 77 healthy_net
           "esp32_01" example_metrics (Some "key-b") example_world).
  split_and!.
  - exists "key-b". split_and!; [done|done|].
    apply (bool_decide_unpack _). vm_compute. exact I.
  - exists esp32_01. split; reflexivity.
  - intros [(v & Hl & Hb)|[(v & Hl & Hb)|[(v & Hl & Hb)|(Hl & _)]]];
      vm_compute in Hl; try discriminate;
      injection Hl as <-; vm_compute in Hb; discriminate.
  - vm_compute. discriminate.
Defined.

Lemma ingest_ignores_other_keys_witness :
  ingest example_settings healthy_net example_now 77 "esp32_01"
         (<["timestamp" := 0%float]> example_metrics) (Some "key-a") example_world
  = ingest example_settings healthy_net example_now 77 "esp32_01"
           example_metrics (Some "key-a") example_world.
Proof.
  apply (ingest_ignores_other_keys example_settings example_now 77 healthy_net
           "esp32_01" (<["timestamp" := 0%float]> example_metrics) example_metrics);
    reflexivity.
Defined.

(** *** A call that raises, over repositories that can raise *)

Lemma ingest_with_no_faults settings net now uuid4 device_id metrics_data api_key :
  ingest_with settings net now uuid4 no_faults device_id metrics_data api_key
  = ingest settings net now uuid4 device_id metrics_data api_key.
Proof. reflexivity. Qed.



(** The one write a raising call leaves: the connection is lost between
    the flush of the reading and the update of the device. *)
Example update_fault_leaves_reading :
  let r := ingest_with example_settings healthy_net example_now 77 update_fails
             "esp32_01" example_metrics (Some "key-a") example_world in
  r.1 = Raise (CollaboratorError "connection lost")
  ∧ readings r.2 = [example_reading]
  ∧ devices r.2 = devices example_world
  ∧ sent r.2 = [].
Proof. cbv zeta. split_and!; vm_compute; reflexivity. Qed.


Lemma ingest_success_effects_witness :
  readings (ingest example_settings healthy_net example_now 77
              "esp32_01" example_metrics (Some "key-a") example_world).2
    = [example_reading].
Proof.
  destruct (ingest_success_effects example_settings healthy_net example_now 77
              "esp32_01" example_metrics (Some "key-a") example_world example_reading)
    as (H & _).
  - vm_compute. reflexivity.
  - exact H.
Defined.

End IngestionMore.

(* ===================================================================== *)
(** ** AggregationService: further properties *)
(* ===================================================================== *)

Section AggregationMore.
Import AggregationService.
Local Open Scope Z_scope.

Lemma no_colon_cons c (a : string) :
  contains ":" (String c a) = false → c ≠ ":"%char ∧ contains ":" a = false.
Proof.
  cbn [contains String.prefix]. intros [Hp Ha]%orb_false_iff. split; [|done].
  intros ->. destruct (ascii_dec ":" ":"); [|done]. by destruct a.
Qed.

Lemma no_colon_app_inj (a a' b b' : string) :
  contains ":" a = false → contains ":" a' = false →
  (a ++ ":" ++ b)%string = (a' ++ ":" ++ b')%string → a = a' ∧ b = b'.
Proof.
  revert a'. induction a as [|c a IH]; intros [|c' a'] Ha Ha' Heq.
  - cbn in Heq. by simplify_eq.
  - apply no_colon_cons in Ha' as [Hc' _]. cbn in Heq. by simplify_eq.
  - apply no_colon_cons in Ha as [Hc _]. cbn in Heq. by simplify_eq.
  - apply no_colon_cons in Ha as [_ Ha]. apply no_colon_cons in Ha' as [_ Ha'].
    cbn in Heq. injection Heq as -> Heq.
    by destruct (IH a' Ha Ha' Heq) as [-> ->].
Qed.

(** Two different queries whose device identifiers hold no colon have
    different cache keys. *)
Theorem cache_key_injective (d d' r r' : string) :
  contains ":" d = false → contains ":" d' = false →
  (d, r) ≠ (d', r') →
  cache_key d r ≠ cache_key d' r'.
Proof.
  intros Hd Hd' Hne Heq. apply Hne. unfold cache_key in Heq. cbn in Heq.
  injection Heq as Heq. by destruct (no_colon_app_inj _ _ _ _ Hd Hd' Heq) as [-> ->].
Qed.

Lemma cache_key_injective_witness :
  cache_key "esp32_1" "24h" ≠ cache_key "esp32_10" "24h".
Proof.
  apply (cache_key_injective "esp32_1" "esp32_10" "24h" "24h");
    [reflexivity|reflexivity|discriminate].
Defined.

Section WithStats.
Context {Stats : Type} (settings : Settings.t).
Implicit Types (w : world Stats).

(** A range string that [TimeRange.last] refuses makes
    [get_device_stats] raise that error with the cache and the
    repository untouched. *)
Theorem get_device_stats_bad_range device_id range_str w e :
  TimeRange.last range_str None (clock w (ticks w)) = Raise e →
  (get_device_stats settings device_id range_str w).1 = Raise e
  ∧ _cache (get_device_stats settings device_id range_str w).2 = _cache w
  ∧ get_stats_calls (get_device_stats settings device_id range_str w).2
      = get_stats_calls w.
Proof.
  intros Hlast. unfold get_device_stats, bind, utcnow, lift; simpl.
  by rewrite Hlast.
Qed.

(** With a non-empty identifier, [clear_cache] deletes the keys in which
    the identifier occurs and keeps the others with their entries; the
    keys of the device itself are among the deleted ones. *)
Theorem clear_cache_by_occurrence c device_id w :
  (∀ k, _cache (clear_cache (Some (String c device_id)) w).2 !! k =
          if contains (String c device_id) k then None else _cache w !! k)
  ∧ (∀ range_str,
       _cache (clear_cache (Some (String c device_id)) w).2
         !! cache_key (String c device_id) range_str = None).
Proof.
  split.
  - intros k. apply clear_cache_lookup.
  - intros range_str. by rewrite clear_cache_lookup, contains_cache_key.
Qed.

(** After the cache was cleared for a device, or as a whole, the next
    statistics query for that device calls the repository. *)
Theorem get_device_stats_after_clear (target : option string) device_id range_str w tr :
  (target = None ∨ target = Some device_id) →
  let w' := (clear_cache target w).2 in
  TimeRange.last range_str None (clock w' (ticks w')) = Ret tr →
  get_stats_calls (get_device_stats settings device_id range_str w').2
    = (get_stats_calls w ++ [(device_id, tr)])%list.
Proof.
  intros Htarget. cbv zeta. intros Hlast.
  assert (_cache (clear_cache target w).2 !! cache_key device_id range_str = None)
    as Hnone.
  { destruct Htarget as [-> | ->]; [done|].
    destruct device_id as [|c d]; [done|].
    by rewrite clear_cache_lookup, contains_cache_key. }
  rewrite (get_device_stats_miss settings _ _ _ tr Hlast).
  - cbv zeta.
    destruct (reading_repo_get_stats (clear_cache target w).2 device_id tr); done.
  - unfold misses. by rewrite Hnone.
Qed.

(** A query that computed its statistics is answered from the cache
    when it is made again while the entry it stored is no older than
    the TTL: the same statistics are returned and the repository is not
    called a second time. *)
Theorem second_query_served_from_cache device_id range_str w tr tr2 stats :
  TimeRange.last range_str None (clock w (ticks w)) = Ret tr →
  misses settings (cache_key device_id range_str) w →
  reading_repo_get_stats w device_id tr = Ret stats →
  let w1 := (get_device_stats settings device_id range_str w).2 in
  TimeRange.last range_str None (clock w1 (ticks w1)) = Ret tr2 →
  (∀ cached_at value,
     _cache w1 !! cache_key device_id range_str = Some (cached_at, value) →
     clock w1 (S (ticks w1)) - cached_at
       ≤ Settings.aggregation_cache_ttl settings * us_per_second) →
  (get_device_stats settings device_id range_str w1).1 = Ret stats
  ∧ get_stats_calls (get_device_stats settings device_id range_str w1).2
      = (get_stats_calls w ++ [(device_id, tr)])%list.
Proof.
  intros Hlast Hmiss Hstats. cbv zeta.
  rewrite (get_device_stats_miss settings _ _ _ tr Hlast Hmiss). cbv zeta.
  rewrite Hstats. cbn [snd].
  set (w1 := World _ _ _ _ _). intros Hlast2 Hfresh.
  assert (_cache w1 !! cache_key device_id range_str
          = Some (clock w (if _cache w !! cache_key device_id range_str is Some _
                           then S (S (ticks w)) else S (ticks w)), stats)) as Hentry
    by (unfold w1; simpl; apply lookup_insert_eq).
  rewrite (get_device_stats_hit settings _ _ w1 tr2 _ _ Hlast2 Hentry (Hfresh _ _ Hentry)).
  done.
Qed.

End WithStats.

Lemma get_device_stats_bad_range_witness :
  (get_device_stats example_settings "esp32_1" "soon"
     (world_at two_device_cache 5 (Ret 7%nat))).1
    = Raise (ValueError "Invalid duration format")
  ∧ _cache (get_device_stats example_settings "esp32_1" "soon"
       (world_at two_device_cache 5 (Ret 7%nat))).2 = two_device_cache.
Proof.
  destruct (get_device_stats_bad_range example_settings "esp32_1" "soon"
              (world_at two_device_cache 5 (Ret 7%nat))
              (ValueError "Invalid duration format")) as (H1 & H2 & _);
    [reflexivity|]. by split.
Defined.

Lemma get_device_stats_after_clear_witness :
  get_stats_calls
    (get_device_stats example_settings "esp32_1" "24h"
       (clear_cache (Some "esp32_1"%string) (world_at two_device_cache 5 (Ret 7%nat))).2).2
  = [("esp32_1"%string,
      TimeRange.Make (mk_datetime 2024 1 14 12 0 5) (mk_datetime 2024 1 15 12 0 5))].
Proof.
  apply (get_device_stats_after_clear example_settings (Some "esp32_1"%string)
           "esp32_1" "24h" (world_at two_device_cache 5 (Ret 7%nat))).
  - by right.
  - reflexivity.
Defined.

Lemma second_query_served_from_cache_witness :
  (get_device_stats example_settings "esp32_2" "24h"
     (get_device_stats example_settings "esp32_2" "24h"
        (world_at two_device_cache 5 (Ret 7%nat))).2).1 = Ret 7%nat
  ∧ length (get_stats_calls
      (get_device_stats example_settings "esp32_2" "24h"
         (get_device_stats example_settings "esp32_2" "24h"
            (world_at two_device_cache 5 (Ret 7%nat))).2).2) = 1%nat.
Proof.
  destruct (second_query_served_from_cache example_settings "esp32_2" "24h"
              (world_at two_device_cache 5 (Ret 7%nat))
              (TimeRange.Make (mk_datetime 2024 1 14 12 0 5) (mk_datetime 2024 1 15 12 0 5))
              (TimeRange.Make (mk_datetime 2024 1 14 12 0 5) (mk_datetime 2024 1 15 12 0 5))
              7%nat) as [H1 H2].
  - reflexivity.
  - vm_compute. exact I.
  - reflexivity.
  - reflexivity.
  - intros cached_at value Hentry. vm_compute in Hentry.
    injection Hentry as <- _. vm_compute. discriminate.
  - split; [exact H1|]. by rewrite H2.
Defined.

End AggregationMore.

(* ===================================================================== *)
(** ** Devices: creation, registration, deactivation *)
(* ===================================================================== *)

Section DeviceFacts.
Import DeviceEntity DeviceService IngestionService.
Local Open Scope list_scope.

Lemma allowed_facts c :
  allowed c = true → is_space c = false ∧ c ≠ ":"%char.
Proof. destruct c as [[] [] [] [] [] [] [] []]; simpl; intros; done. Qed.

Lemma rstrip_allowed s : all_chars allowed s = true → rstrip s = s.
Proof.
  induction s as [|c s IH]; [done|]. cbn [all_chars rstrip].
  intros [Hc Hs]%andb_true_iff. rewrite (IH Hs).
  destruct (allowed_facts c Hc) as [-> _]. by destruct s.
Qed.

Lemma strip_allowed s : all_chars allowed s = true → strip s = s.
Proof.
  intros Hs. unfold strip.
  assert (lstrip s = s) as ->; [|by apply rstrip_allowed].
  destruct s as [|c s]; [done|]. simpl in *.
  apply andb_true_iff in Hs as [Hc _].
  by destruct (allowed_facts c Hc) as [-> _].
Qed.

Lemma no_colon_allowed s : all_chars allowed s = true → contains ":" s = false.
Proof.
  induction s as [|c s IH]; [done|]. cbn [all_chars contains String.prefix].
  intros [Hc Hs]%andb_true_iff. rewrite (IH Hs).
  destruct (allowed_facts c Hc) as [_ Hne].
  destruct (ascii_dec ":" c); [congruence|done].
Qed.

Lemma create_returns device_id api_key_hash name created_at uuid4 utcnow dev :
  DeviceEntity.create device_id api_key_hash name created_at uuid4 utcnow = Ret dev ↔
    device_id ≠ EmptyString
    ∧ (String.length device_id ≤ 64)%nat
    ∧ all_chars allowed device_id = true
    ∧ dev = Device.Make uuid4 device_id (clean_name name) api_key_hash true
                        (default utcnow created_at) None.
Proof.
  unfold DeviceEntity.create.
  destruct (String.eqb device_id EmptyString) eqn:E0; simpl.
  { apply String.eqb_eq in E0. split; [done|]. by intros [? _]. }
  apply String.eqb_neq in E0.
  destruct (all_chars allowed device_id) eqn:Hall.
  - rewrite (strip_allowed _ Hall).
    rewrite (proj2 (String.eqb_neq _ _) E0).
    destruct (64 <? String.length device_id)%nat eqn:Hlen; simpl.
    + apply Nat.ltb_lt in Hlen. split; [done|]. intros (_ & ? & _). lia.
    + apply Nat.ltb_ge in Hlen. split; [by intros [= <-]|by intros (_ & _ & _ & ->)].
  - split; [|by intros (_ & _ & ? & _)].
    destruct (String.eqb (strip device_id) EmptyString); [done|].
    destruct (64 <? String.length device_id)%nat; done.
Qed.

(** Of the identifiers made of ASCII characters, [Device.create]
    accepts those of one to sixty-four characters among letters, digits,
    underscore and hyphen, and no other. The device it returns for one
    of them carries the identifier as given: it is active, was never
    seen, and its identifier holds no colon and no white space to
    strip. *)
Theorem device_create_valid device_id api_key_hash name created_at uuid4 utcnow :
  is_ascii device_id = true →
  (is_ret (DeviceEntity.create device_id api_key_hash name created_at uuid4 utcnow) = true ↔
     device_id ≠ EmptyString ∧ (String.length device_id ≤ 64)%nat
     ∧ all_chars allowed device_id = true)
  ∧ (∀ dev,
       DeviceEntity.create device_id api_key_hash name created_at uuid4 utcnow = Ret dev →
       Device.device_id dev = device_id
       ∧ Device.is_active dev = true
       ∧ Device.last_seen_at dev = None
       ∧ contains ":" (Device.device_id dev) = false
       ∧ strip (Device.device_id dev) = Device.device_id dev).
Proof.
  intros _. split.
  - destruct (DeviceEntity.create _ _ _ _ _ _) as [dev|e] eqn:Hc; simpl.
    + apply create_returns in Hc as (? & ? & ? & _). done.
    + split; [done|]. intros (H1 & H2 & H3).
      assert (DeviceEntity.create device_id api_key_hash name created_at uuid4 utcnow
              = Ret (Device.Make uuid4 device_id (clean_name name) api_key_hash true
                       (default utcnow created_at) None)) as Hr
        by (by apply create_returns).
      congruence.
  - intros dev (Hne & Hlen & Hall & ->)%create_returns. simpl.
    split_and!; [done|done|done|by apply no_colon_allowed|by apply strip_allowed].
Qed.

Lemma device_create_valid_witness :
  is_ret (DeviceEntity.create "esp32_01" "hash" (Some " Greenhouse ") None 7
            example_now) = true
  ∧ is_ret (DeviceEntity.create "esp32 01" "hash" None None 7 example_now) = false.
Proof.
  split.
  - destruct (device_create_valid "esp32_01" "hash" (Some " Greenhouse ") None 7
                example_now eq_refl) as [[_ Haccepts] _].
    apply Haccepts. split_and!; [done|cbn; lia|reflexivity].
  - destruct (device_create_valid "esp32 01" "hash" None None 7
                example_now eq_refl) as [[Hrefuses _] _].
    destruct (is_ret _); [|done].
    destruct (Hrefuses eq_refl) as (_ & _ & Hall). vm_compute in Hall. discriminate.
Defined.

Section WithOracles.
Context (hash_api_key : string → string) (raw_api_key : string)
        (now : datetime) (uuid4 : UUID).

Lemma register_device_Ok device_id name table reg table' :
  register_device hash_api_key raw_api_key now uuid4 device_id name table
    = (Ok reg, table') →
  table !! device_id = None
  ∧ all_chars allowed device_id = true ∧ device_id ≠ EmptyString
  ∧ table' =
      <[device_id := Device.Make uuid4 device_id (clean_name name)
                       (hash_api_key raw_api_key) true now None]> table
  ∧ reg = Registration uuid4 device_id (clean_name name) raw_api_key now.
Proof.
  unfold register_device, device_repo_create.
  destruct (table !! device_id) eqn:Hd; [done|].
  destruct (DeviceEntity.create _ _ _ _ _ _) as [dev|] eqn:Hc; [|done].
  apply create_returns in Hc as (Hne & _ & Hall & ->). simpl.
  rewrite Hd. by intros [= <- <-].
Qed.

(** A registration that fails leaves the devices table as it was; one
    that succeeds adds the device, active and never seen, under an
    identifier that was free, and from then on [ingest] accepts a
    reading of that device for every configured key and every valid
    payload: the key handed out by the registration is not looked at. *)
Theorem register_then_ingest device_id name table :
  let r := register_device hash_api_key raw_api_key now uuid4 device_id name table in
  match r.1 with
  | Err _ => r.2 = table
  | Ok reg =>
      table !! device_id = None
      ∧ reg_device_id reg = device_id ∧ reg_api_key reg = raw_api_key
      ∧ (∃ dev, r.2 = <[device_id := dev]> table
                ∧ Device.is_active dev = true ∧ Device.last_seen_at dev = None
                ∧ Device.api_key_hash dev = hash_api_key raw_api_key)
      ∧ ∀ settings net t u metrics_data api_key (w : world),
          devices w = r.2 →
          valid_key settings api_key →
          ¬ invalid_metrics metrics_data →
          ∃ reading,
            (ingest settings net t u device_id metrics_data api_key w).1 = Ret reading
  end.
Proof.
  cbv zeta.
  destruct (register_device _ _ _ _ _ _ _) as [[reg|e] table'] eqn:Hr; simpl.
  - apply register_device_Ok in Hr as (Hfree & Hall & Hne & -> & ->). simpl.
    split_and!; [done|done|done|eauto|].
    intros settings net t u metrics_data api_key w Hw Hkey Hvalid.
    apply (ingest_returns settings t u net). split_and!; [done| |done|].
    + rewrite Hw, lookup_insert_eq. eauto.
    + by rewrite strip_allowed.
  - revert Hr. unfold register_device, device_repo_create.
    destruct (table !! device_id); [by intros [= _ <-]|].
    destruct (DeviceEntity.create _ _ _ _ _ _) as [dev|]; [|by intros [= _ <-]].
    destruct (table !! Device.device_id dev); [by intros [= _ <-]|done].
Qed.

(** Deactivating an unknown device raises [DeviceNotFoundError] and
    changes nothing. Deactivating a known one clears its active flag
    and nothing else, and from then on [ingest] refuses its readings
    with [DeviceInactiveError] and writes nothing. *)
Theorem deactivate_then_ingest device_id table :
  let r := deactivate_device device_id table in
  match table !! device_id with
  | None => r = (Err (DeviceService.DeviceNotFoundError device_id), table)
  | Some dev =>
      r = (Ok device_id, <[device_id := DeviceEntity.deactivate dev]> table)
      ∧ ∀ settings net t u metrics_data api_key (w : world),
          devices w = r.2 →
          valid_key settings api_key →
          ingest settings net t u device_id metrics_data api_key w
            = (Raise (DeviceInactiveError device_id), w)
  end.
Proof.
  cbv zeta. unfold deactivate_device, device_repo_deactivate.
  destruct (table !! device_id) as [dev|] eqn:Hd; simpl; [|done].
  split; [done|].
  intros settings net t u metrics_data api_key w Hw Hkey.
  rewrite (ingest_good_key settings net t u _ _ _ _ Hkey).
  by rewrite Hw, lookup_insert_eq.
Qed.

End WithOracles.
End DeviceFacts.
